(** * number_guess.py: the guessing game and its leaderboard

    A shallow embedding of [src/number_guess.py]: the input reader
    ([ask_int]), the difficulty selector ([choose_difficulty]), the
    guessing round ([play_round]) and the score store ([load_scores],
    [save_score], [show_leaderboard]), followed by the properties of the
    specification.

    Conventions of the model.
    - A Python [str] is the list of its code points.
    - A Python [int] is a [Z]; a finite Python [float] is the rational it
      denotes, a [Q].
    - The terminal is a list of pending input lines and a log of what was
      written; the score file is a value of type [file].
    - The clock and the random source are read by the caller and passed
      in as arguments. *)

From Stdlib Require Import ZArith QArith Qround List Bool Lia String Ascii.
From Stdlib Require Import Sorting.Sorted Sorting.Permutation.
Import ListNotations.

Local Open Scope string_scope.
Local Open Scope list_scope.
Local Open Scope Z_scope.

(* ================================================================== *)
(** ** Python strings *)

Module PyStr.

(** A [str] is a sequence of Unicode code points. *)
Definition str := list N.

(** Decoder of the UTF-8 bytes of a literal: [need] continuation bytes
    are still expected for the code point accumulated in [acc]. *)
Fixpoint utf8 (need : nat) (acc : N) (bs : list N) : str :=
  match bs with
  | [] => []
  | b :: bs' =>
      match need with
      | O =>
          if (b <? 128)%N then b :: utf8 0 0%N bs'
          else if (b <? 224)%N then utf8 1 (N.land b 31) bs'
          else if (b <? 240)%N then utf8 2 (N.land b 15) bs'
          else utf8 3 (N.land b 7) bs'
      | S k =>
          let acc' := N.lor (N.shiftl acc 6) (N.land b 63) in
          match k with
          | O => acc' :: utf8 0 0%N bs'
          | S _ => utf8 k acc' bs'
          end
      end
  end.

(** The [str] written by a literal of the source text. *)
Definition lit (s : string) : str :=
  utf8 0 0%N (map N_of_ascii (list_ascii_of_string s)).

Definition eqb (a b : str) : bool :=
  if list_eq_dec N.eq_dec a b then true else false.

(** [not s] of the source: the empty string is the only falsy one. *)
Definition falsy (s : str) : bool :=
  match s with [] => true | _ => false end.

(** [str.isspace] on one code point: the characters [str.strip()]
    removes. *)
Definition isspace (c : N) : bool :=
  ((9 <=? c) && (c <=? 13) || (28 <=? c) && (c <=? 32)
   || (c =? 133) || (c =? 160) || (c =? 5760)
   || (8192 <=? c) && (c <=? 8202)
   || (c =? 8232) || (c =? 8233) || (c =? 8239) || (c =? 8287)
   || (c =? 12288))%N.

Fixpoint lstrip (s : str) : str :=
  match s with
  | c :: s' => if isspace c then lstrip s' else s
  | [] => []
  end.

Definition rstrip (s : str) : str := rev (lstrip (rev s)).

(** [s.strip()]. *)
Definition strip (s : str) : str := rstrip (lstrip s).

(** First code points of the blocks of ten decimal digits (general
    category Nd, Unicode 15); a block starting at [b] holds the digits
    0..9 at [b .. b+9]. *)
Definition decimal_blocks : list N :=
  [ 48; 1632; 1776; 1984; 2406; 2534; 2662; 2790; 2918; 3046; 3174; 3302;
    3430; 3558; 3664; 3792; 3872; 4160; 4240; 6112; 6160; 6470; 6608; 6784;
    6800; 6992; 7088; 7232; 7248; 42528; 43216; 43264; 43472; 43504; 43600;
    44016; 65296; 66720; 68912; 69734; 69872; 69942; 70096; 70384; 70736;
    70864; 71248; 71360; 71472; 71904; 72016; 72784; 73040; 73120; 73552;
    92768; 92864; 93008; 120782; 120792; 120802; 120812; 120822; 123200;
    123632; 124144; 125264; 130032 ]%N.

(** Code points that are digits without being decimal digits
    (Numeric_Type=Digit): superscripts, subscripts, circled and
    parenthesised digits and the like, as inclusive ranges. *)
Definition digit_only_ranges : list (N * N) :=
  [ (178, 179); (185, 185); (4969, 4977); (6618, 6618); (8304, 8304);
    (8308, 8313); (8320, 8329); (9312, 9320); (9332, 9340); (9352, 9360);
    (9450, 9450); (9461, 9469); (9471, 9471); (10102, 10110);
    (10112, 10120); (10122, 10130); (68160, 68163); (69216, 69224);
    (69714, 69722); (127232, 127242) ]%N.

(** The decimal value of a code point, when it is a decimal digit. *)
Definition decimal_value (c : N) : option Z :=
  match find (fun b => (b <=? c) && (c <? b + 10))%N decimal_blocks with
  | Some b => Some (Z.of_N (c - b))
  | None => None
  end.

Definition isdecimal_char (c : N) : bool :=
  match decimal_value c with Some _ => true | None => false end.

Definition isdigit_char (c : N) : bool :=
  isdecimal_char c
  || existsb (fun r => (fst r <=? c) && (c <=? snd r))%N digit_only_ranges.

(** [s.isdigit()]: at least one character, and all of them digits. *)
Definition isdigit (s : str) : bool :=
  negb (falsy s) && forallb isdigit_char s.

(** [s.startswith("-")]. *)
Definition startswith_minus (s : str) : bool :=
  match s with c :: _ => (c =? 45)%N | [] => false end.

(** [s[1:]]. *)
Definition tail1 (s : str) : str := tl s.

(** The digits of a base-10 literal read left to right; single
    underscores may separate digits.  [prev] tells whether the previous
    character was a digit. *)
Fixpoint int_digits (prev : bool) (acc : Z) (s : str) : option Z :=
  match s with
  | [] => if prev then Some acc else None
  | c :: s' =>
      if (c =? 95)%N then
        if prev then int_digits false acc s' else None
      else
        match decimal_value c with
        | Some d => int_digits true (10 * acc + d) s'
        | None => None
        end
  end.

(** [int(s)] for a [str]: surrounding white space, an optional sign and
    decimal digits; [None] stands for [ValueError]. *)
Definition int (s : str) : option Z :=
  match strip s with
  | [] => None
  | c :: s' =>
      if (c =? 45)%N then option_map Z.opp (int_digits false 0 s')
      else if (c =? 43)%N then int_digits false 0 s'
      else int_digits false 0 (c :: s')
  end.

End PyStr.

Abbreviation str := PyStr.str.
Abbreviation lit := PyStr.lit.

(* ================================================================== *)
(** ** Score records and the backing file *)

(** One entry of [scores.json], with the keys [save_score] writes.
    [time_taken] holds the number the file shows. *)
Record ScoreRecord := mkScore {
  name : str;
  attempts : Z;
  time_taken : Q;
  difficulty : str;
  timestamp : Z
}.

(** What [SCORES_FILE] holds.  [json.dump] followed by [json.load] gives
    back the list of records written, so a file that decodes is modelled
    by the list it decodes to.
    - [Missing]: [os.path.exists] is false;
    - [Unreadable]: the file exists and [open] or [json.load] raises;
    - [Stored l]: the file decodes to the list of records [l]. *)
Inductive file :=
| Missing
| Unreadable
| Stored (l : list ScoreRecord).

(* ================================================================== *)
(** ** The terminal, and computations over it *)

(** A piece of a printed line: literal text, or an interpolated value of
    an f-string. *)
Inductive frag :=
| Text (s : str)
| IntF (n : Z)
| FloatF (q : Q)
| PadF (f : frag) (width : nat)
| LocalTimeF (ts : Z).

Inductive output :=
| Prompt (line : list frag)
| Print (line : list frag).

Record world := mkWorld {
  stdin : list str;
  stdout : list output;
  disk : file
}.

Inductive exn :=
| ValueError.

(** How a call ends: it returns, it raises, or it sits in [input()]
    with no line left to read.  [FuelOut] is the loop bound of the model
    running out; the entry points give every loop more fuel than it can
    use. *)
Inductive outcome (A : Type) :=
| Return (a : A) (w : world)
| Raise (e : exn) (w : world)
| AwaitInput (w : world)
| FuelOut.

Arguments Return {A} a w.
Arguments Raise {A} e w.
Arguments AwaitInput {A} w.
Arguments FuelOut {A}.

Definition M (A : Type) := world -> outcome A.

Definition ret {A} (a : A) : M A := fun w => Return a w.

Definition bind {A B} (m : M A) (k : A -> M B) : M B :=
  fun w =>
    match m w with
    | Return a w' => k a w'
    | Raise e w' => Raise e w'
    | AwaitInput w' => AwaitInput w'
    | FuelOut => FuelOut
    end.

Notation "x <- m ;; k" := (bind m (fun x => k))
  (at level 61, m at next level, right associativity).
Notation "m ;;; k" := (bind m (fun _ => k))
  (at level 61, right associativity).

Definition raise {A} (e : exn) : M A := fun w => Raise e w.

Definition emit (o : output) (w : world) : world :=
  mkWorld (stdin w) (stdout w ++ [o]) (disk w).

(** [print(line)]. *)
Definition print (line : list frag) : M unit :=
  fun w => Return tt (emit (Print line) w).

(** [input(prompt)]: writes the prompt, then takes the next line. *)
Definition input (prompt : list frag) : M str :=
  fun w =>
    let w' := emit (Prompt prompt) w in
    match stdin w' with
    | [] => AwaitInput w'
    | l :: rest => Return l (mkWorld rest (stdout w') (disk w'))
    end.

Definition read_disk : M file := fun w => Return (disk w) w.

Definition write_disk (f : file) : M unit :=
  fun w => Return tt (mkWorld (stdin w) (stdout w) f).

(** The world an outcome leaves behind, when there is one. *)
Definition final_world {A} (o : outcome A) : option world :=
  match o with
  | Return _ w | Raise _ w | AwaitInput w => Some w
  | FuelOut => None
  end.

(* ================================================================== *)
(** ** Input reader *)

(** [minv is not None and n < minv]. *)
Definition below (minv : option Z) (n : Z) : bool :=
  match minv with Some m => n <? m | None => false end.

(** [maxv is not None and n > maxv]. *)
Definition above (maxv : option Z) (n : Z) : bool :=
  match maxv with Some m => n >? m | None => false end.

(** The text of [rng] in the out-of-range message. *)
Definition rng (minv maxv : option Z) : list frag :=
  match minv, maxv with
  | Some lo, Some hi =>
      [Text (lit " between "); IntF lo; Text (lit " and "); IntF hi]
  | _, _ => []
  end.

(** The body of [ask_int]; one unit of fuel per turn of [while True]. *)
Fixpoint ask_int_loop (fuel : nat) (prompt : list frag)
    (minv maxv : option Z) : M Z :=
  match fuel with
  | O => fun _ => FuelOut
  | S fuel' =>
      line <- input prompt ;;
      let val := PyStr.strip line in
      if PyStr.falsy val then
        print [Text (lit "Please enter a value.")] ;;;
        ask_int_loop fuel' prompt minv maxv
      else if PyStr.isdigit val
              || (PyStr.startswith_minus val
                  && PyStr.isdigit (PyStr.tail1 val)) then
        match PyStr.int val with
        | None => raise ValueError
        | Some n =>
            if below minv n || above maxv n then
              print ([Text (lit "Enter an integer")] ++ rng minv maxv
                     ++ [Text (lit ".")]) ;;;
              ask_int_loop fuel' prompt minv maxv
            else ret n
        end
      else
        print [Text (lit "That's not an integer. Try again.")] ;;;
        ask_int_loop fuel' prompt minv maxv
  end.

(** [ask_int(prompt, minv, maxv)].  Every turn of the loop takes a line,
    so one more turn than there are pending lines is always enough. *)
Definition ask_int (prompt : list frag) (minv maxv : option Z) : M Z :=
  fun w => ask_int_loop (S (List.length (stdin w))) prompt minv maxv w.

Definition on_lines (ls : list string) : world :=
  mkWorld (map lit ls) [] Missing.

(* ================================================================== *)
(** ** Score store *)

Definition path_exists (f : file) : bool :=
  match f with Missing => false | _ => true end.

(** [json.load] on the opened file; [None] stands for any exception. *)
Definition json_load (f : file) : option (list ScoreRecord) :=
  match f with Stored l => Some l | _ => None end.

(** [load_scores()]. *)
Definition load_scores : M (list ScoreRecord) :=
  f <- read_disk ;;
  if negb (path_exists f) then ret []
  else
    match json_load f with
    | Some l => ret l
    | None => ret []
    end.

(** Rounding to the nearest integer, ties to the even one. *)
Definition round_half_even (q : Q) : Z :=
  let f := Qfloor q in
  match (q - inject_Z f ?= 1 # 2)%Q with
  | Lt => f
  | Gt => f + 1
  | Eq => if Z.even f then f else f + 1
  end.

(** [round(x, 2)]: the nearest multiple of one hundredth. *)
Definition round2 (x : Q) : Q :=
  Qred (round_half_even (x * 100) # 100).

(** [int(x)] for a float: truncation towards zero. *)
Definition int_of_float (x : Q) : Z :=
  if Qle_bool 0 x then Qfloor x else Qceiling x.

(** The sort key [(s["attempts"], s["time_taken"])]. *)
Definition key (s : ScoreRecord) : Z * Q := (attempts s, time_taken s).

(** [a < b] on two keys, as tuples compare: the first component in
    which they differ decides. *)
Definition key_lt (a b : Z * Q) : bool :=
  if fst a =? fst b then
    match (snd a ?= snd b)%Q with Lt => true | _ => false end
  else fst a <? fst b.

(** [x] put in front of the first record that is not smaller than it. *)
Fixpoint insert (x : ScoreRecord) (l : list ScoreRecord)
    : list ScoreRecord :=
  match l with
  | [] => [x]
  | y :: l' => if key_lt (key y) (key x) then y :: insert x l' else x :: l
  end.

(** [sorted(scores, key=...)]: the stable ascending sort, records with
    equal keys keeping their order. *)
Definition sorted (l : list ScoreRecord) : list ScoreRecord :=
  fold_right insert [] l.

(** [save_score(name, attempts, time_taken, difficulty)]; [clock] is
    what [time.time()] returns during the call. *)
Definition save_score (nm : str) (att : Z) (secs : Q) (diff : str)
    (clock : Q) : M unit :=
  scores <- load_scores ;;
  let scores :=
    scores ++ [mkScore nm att (round2 secs) diff (int_of_float clock)] in
  let scores := firstn 20 (sorted scores) in
  write_disk (Stored scores).

Definition nl : str := [10%N].

Fixpoint print_rows (i : Z) (scores : list ScoreRecord) : M unit :=
  match scores with
  | [] => ret tt
  | s :: rest =>
      print [IntF i; Text (lit ". "); PadF (Text (name s)) 12;
             Text (lit " | attempts: "); PadF (IntF (attempts s)) 2;
             Text (lit " | time: "); PadF (FloatF (time_taken s)) 5;
             Text (lit "s | "); PadF (Text (difficulty s)) 6;
             Text (lit " | "); LocalTimeF (timestamp s)] ;;;
      print_rows (i + 1) rest
  end.

Definition no_leaderboard : list frag :=
  [Text nl; Text (lit "No leaderboard yet — be the first!"); Text nl].

(** [show_leaderboard()]. *)
Definition show_leaderboard : M unit :=
  scores <- load_scores ;;
  match scores with
  | [] => print no_leaderboard
  | _ =>
      print [Text nl; Text (lit "--- Leaderboard (best first) ---")] ;;;
      print_rows 1 scores ;;;
      print [Text (lit "-------------------------------"); Text nl]
  end.

(* ================================================================== *)
(** ** Difficulty selector *)

Definition Difficulty := (str * Z * Z * Z)%type.

Fixpoint choose_difficulty_loop (fuel : nat) : M Difficulty :=
  match fuel with
  | O => fun _ => FuelOut
  | S fuel' =>
      line <- input [Text (lit "Enter 1/2/3/4: ")] ;;
      let choice := PyStr.strip line in
      if PyStr.eqb choice (lit "1") then ret (lit "Easy", 1, 10, 6)
      else if PyStr.eqb choice (lit "2") then ret (lit "Medium", 1, 50, 7)
      else if PyStr.eqb choice (lit "3") then ret (lit "Hard", 1, 100, 8)
      else if PyStr.eqb choice (lit "4") then
        low <- ask_int [Text (lit "Enter lower bound (integer): ")]
                 None None ;;
        high <- ask_int [Text (lit "Enter upper bound (integer, > lower): ")]
                  None None ;;
        if high <=? low then
          print [Text (lit "Upper bound must be greater than lower bound.")] ;;;
          choose_difficulty_loop fuel'
        else
          att <- ask_int [Text (lit "Enter max attempts (>=1): ")]
                   (Some 1) None ;;
          ret (lit "Custom", low, high, att)
      else
        print [Text (lit "Invalid choice, try again.")] ;;;
        choose_difficulty_loop fuel'
  end.

(** [choose_difficulty()]. *)
Definition choose_difficulty : M Difficulty :=
  print [Text (lit "Choose difficulty:")] ;;;
  print [Text (lit "  1) Easy   (range 1-10, attempts 6)")] ;;;
  print [Text (lit "  2) Medium (range 1-50, attempts 7)")] ;;;
  print [Text (lit "  3) Hard   (range 1-100, attempts 8)")] ;;;
  print [Text (lit "  4) Custom (you choose range and attempts)")] ;;;
  fun w => choose_difficulty_loop (S (List.length (stdin w))) w.

(* ================================================================== *)
(** ** Guess session *)

(** [random.randint(low, high)]; [rnd] is the raw draw of the generator,
    reduced to the range. *)
Definition randint (low high rnd : Z) : M Z :=
  if low <=? high then ret (low + rnd mod (high - low + 1))
  else raise ValueError.

Definition hint_of (secret guess : Z) : str :=
  if guess <? secret then lit "higher" else lit "lower".

Definition closeness_of (low high secret guess : Z) : str :=
  let diff := Z.abs (secret - guess) in
  if diff =? 0 then lit ""
  else if diff <=? Z.max 1 ((high - low) / 20) then lit " (very close!)"
  else if diff <=? Z.max 1 ((high - low) / 5) then lit " (close)"
  else lit "".

(** The line printed after a wrong guess. *)
Definition nope (low high secret guess : Z) : list frag :=
  [Text (lit "Nope — try "); Text (hint_of secret guess); Text (lit ".");
   Text (closeness_of low high secret guess); Text nl].

(** The prompt of one guess. *)
Definition guess_prompt (att max_attempts : Z) : list frag :=
  [Text (lit "[Attempt "); IntF att; Text (lit "/"); IntF max_attempts;
   Text (lit "] Your guess: ")].

(** The [while attempts < max_attempts] loop; it yields [guessed] and
    [attempts].  ([last_diff] is written and never read.) *)
Fixpoint guess_loop (fuel : nat) (low high max_attempts secret att : Z)
    : M (bool * Z) :=
  match fuel with
  | O => fun _ => FuelOut
  | S fuel' =>
      if att <? max_attempts then
        let att := att + 1 in
        guess <- ask_int (guess_prompt att max_attempts)
                   (Some low) (Some high) ;;
        if guess =? secret then ret (true, att)
        else
          print (nope low high secret guess) ;;;
          guess_loop fuel' low high max_attempts secret att
      else ret (false, att)
  end.

Definition name_prompt : list frag :=
  [Text (lit
"Enter your name for the leaderboard (or press Enter to stay anonymous): ")].

(** The name asked for after a win when the caller gave none. *)
Definition leaderboard_name (nm : option str) : M str :=
  let ask :=
    line <- input name_prompt ;;
    let n := PyStr.strip line in
    ret (if PyStr.falsy n then lit "Anon" else n) in
  match nm with
  | None => ask
  | Some n => if PyStr.falsy n then ask else ret n
  end.

(** [play_round(name)].  [rnd] is the draw of the random source; [start]
    and [stop] are the two clock readings around the guessing loop and
    [clock] the reading inside [save_score]. *)
Definition play_round (nm : option str) (rnd : Z) (start stop clock : Q)
    : M (bool * Z * Q * str) :=
  d <- choose_difficulty ;;
  let '(diff, low, high, max_attempts) := d in
  secret <- randint low high rnd ;;
  print [Text nl; Text (lit "I've picked a number between "); IntF low;
         Text (lit " and "); IntF high; Text (lit ". You have ");
         IntF max_attempts; Text (lit " attempts. Good luck!"); Text nl] ;;;
  r <- (fun w =>
          guess_loop (S (List.length (stdin w))) low high max_attempts
            secret 0 w) ;;
  let '(guessed, att) := r in
  let secs := (stop - start)%Q in
  (if guessed then
     print [Text nl; Text (lit "🎉 Correct! The number was "); IntF secret;
            Text (lit ".")] ;;;
     print [Text (lit "Attempts: "); IntF att; Text (lit ", Time: ");
            FloatF (round2 secs); Text (lit "s, Difficulty: "); Text diff] ;;;
     n <- leaderboard_name nm ;;
     save_score n att secs diff clock
   else
     print [Text nl; Text (lit "☹️ Out of attempts! The number was ");
            IntF secret; Text (lit ". Better luck next time.")]) ;;;
  print [] ;;;
  ret (guessed, att, secs, diff).


(* ================================================================== *)
(** ** Vocabulary of the properties *)

(** The records [load_scores] finds in a file. *)
Definition scores_of (f : file) : list ScoreRecord :=
  match f with Stored l => l | _ => [] end.

(** Ascending order of two records by [(attempts, time_taken)]. *)
Definition key_le (a b : ScoreRecord) : Prop :=
  attempts a < attempts b
  \/ (attempts a = attempts b /\ (time_taken a <= time_taken b)%Q).

(** Strictly ascending order of two records by the same key. *)
Definition key_before (a b : ScoreRecord) : Prop :=
  attempts a < attempts b
  \/ (attempts a = attempts b /\ (time_taken a < time_taken b)%Q).

(** The arguments of one call of [save_score], with the clock reading
    of that call. *)
Record save_call := mkCall {
  c_name : str;
  c_attempts : Z;
  c_time : Q;
  c_difficulty : str;
  c_clock : Q
}.

(** The record a call appends. *)
Definition record_of (c : save_call) : ScoreRecord :=
  mkScore (c_name c) (c_attempts c) (round2 (c_time c)) (c_difficulty c)
    (int_of_float (c_clock c)).

Definition save (c : save_call) : M unit :=
  save_score (c_name c) (c_attempts c) (c_time c) (c_difficulty c)
    (c_clock c).

(** Calls of [save_score] one after the other. *)
Fixpoint saves (cs : list save_call) : M unit :=
  match cs with
  | [] => ret tt
  | c :: cs' => save c ;;; saves cs'
  end.

(** The store a save leaves, given the file it found. *)
Definition saved (f : file) (r : ScoreRecord) : list ScoreRecord :=
  firstn 20 (sorted (scores_of f ++ [r])).

Definition set_disk (f : file) (w : world) : world :=
  mkWorld (stdin w) (stdout w) f.

(** The file after a run of saves, starting from the file [f]. *)
Definition store_after (f : file) (cs : list save_call) : file :=
  fold_left (fun f c => Stored (saved f (record_of c))) cs f.

(** Sample data for the concrete runs below: a save of [n] attempts,
    and the saves of 1, 2, ..., [k] attempts in that order. *)
Definition sample_call (n : Z) : save_call :=
  mkCall (lit "Ann") n (7 # 2) (lit "Easy") (1700000000 # 1).

Definition sample_calls (k : nat) : list save_call :=
  map (fun i => sample_call (Z.of_nat i)) (seq 1 k).

(** A terminal with nothing typed and nothing written, over the file
    [f]. *)
Definition idle (f : file) : world := mkWorld [] [] f.

(** A store at capacity: twenty records of one attempt each. *)
Definition full_store : list ScoreRecord :=
  repeat (mkScore (lit "Ann") 1 (7 # 2) (lit "Easy") 1700000000) 20.

(** Text that reads as an integer: digits only, after an optional
    leading minus sign. *)
Definition all_digits (s : str) : Prop :=
  s <> [] /\ Forall (fun c => PyStr.isdigit_char c = true) s.

Definition integer_text (s : str) : Prop :=
  all_digits s \/ exists rest, s = 45%N :: rest /\ all_digits rest.

(** A computation that leaves the score file as it found it, however it
    ends. *)
Definition keeps_disk {A} (m : M A) : Prop :=
  forall w,
    match final_world (m w) with
    | Some w' => disk w' = disk w
    | None => True
    end.


(** The hints a log shows: the hint word and the closeness note of
    every line printed after a wrong guess. *)
Definition hint_of_line (o : output) : option (str * str) :=
  match o with
  | Print [Text a; Text h; Text _; Text c; Text _] =>
      if PyStr.eqb a (lit "Nope — try ") then Some (h, c) else None
  | _ => None
  end.

Fixpoint hints_of (out : list output) : list (str * str) :=
  match out with
  | [] => []
  | o :: out' =>
      match hint_of_line o with
      | Some h => h :: hints_of out'
      | None => hints_of out'
      end
  end.

(** What a round does to the score file: a round that returns won has
    saved one record, with the attempts, the time and the difficulty it
    returns; any other round leaves the file as it was. *)
Definition round_effect (clock : Q) (m : M (bool * Z * Q * str)) : Prop :=
  forall w,
    match m w with
    | Return (true, att, secs, diff) w' =>
        exists nm,
          disk w'
          = Stored (saved (disk w)
                      (mkScore nm att (round2 secs) diff (int_of_float clock)))
    | o =>
        match final_world o with
        | Some w' => disk w' = disk w
        | None => True
        end
    end.

(** The world a computation leaves, or the one it started in when it
    leaves none. *)
Definition world_after {A} (m : M A) (w : world) : world :=
  match final_world (m w) with Some w' => w' | None => w end.

(** A lost round on the easy level: the secret is 7 and the six guesses
    are 1 to 6. *)
Definition lost_round : M (bool * Z * Q * str) :=
  play_round (Some (lit "Player")) 6 (0 # 1) (10 # 1) (1700000000 # 1).

Definition lost_round_start : world :=
  mkWorld (map lit ["1"; "1"; "2"; "3"; "4"; "5"; "6"]) [] (Stored full_store).

(* ================================================================== *)
(** ** Menu loop *)

(** What the random source and the clock give to one round: the draw,
    the two readings around the guessing loop and the reading inside
    [save_score]. *)
Record round_env := mkEnv {
  e_rnd : Z;
  e_start : Q;
  e_stop : Q;
  e_clock : Q
}.

Definition goodbye : list frag :=
  [Text (lit "Goodbye — thanks for playing!")].

(** The [while True] loop of [main]; [round] counts the rounds played so
    far and [env round] is what the next round draws and reads. *)
Fixpoint main_loop (fuel : nat) (player : str) (env : nat -> round_env)
    (round : nat) : M unit :=
  match fuel with
  | O => fun _ => FuelOut
  | S fuel' =>
      print [Text nl; Text (lit "Menu:")] ;;;
      print [Text (lit "  1) Play")] ;;;
      print [Text (lit "  2) Leaderboard")] ;;;
      print [Text (lit "  3) About / Help")] ;;;
      print [Text (lit "  4) Exit")] ;;;
      line <- input [Text (lit "Choose 1/2/3/4: ")] ;;
      let choice := PyStr.strip line in
      if PyStr.eqb choice (lit "1") then
        play_round (Some player) (e_rnd (env round)) (e_start (env round))
          (e_stop (env round)) (e_clock (env round)) ;;;
        main_loop fuel' player env (S round)
      else if PyStr.eqb choice (lit "2") then
        show_leaderboard ;;;
        main_loop fuel' player env round
      else if PyStr.eqb choice (lit "3") then
        print [Text nl; Text (lit "About:")] ;;;
        print [Text (lit
"  Guess the secret number in limited attempts. Hints will tell you higher/lower.")] ;;;
        print [Text (lit
"  Leaderboard stores best scores in 'scores.json' in the same folder.")] ;;;
        print [Text (lit
"  Tip: choosing a smaller range makes it easier; custom mode lets you practice.")] ;;;
        main_loop fuel' player env round
      else if PyStr.eqb choice (lit "4") then
        print goodbye
      else
        print [Text (lit "Invalid choice, try again.")] ;;;
        main_loop fuel' player env round
  end.

(** [main()]. *)
Definition main (env : nat -> round_env) : M unit :=
  print [Text (lit "=== Number Guessing Game ===")] ;;;
  line <- input [Text (lit
            "What's your name? (press Enter for 'Player'): ")] ;;
  let p := PyStr.strip line in
  let player := if PyStr.falsy p then lit "Player" else p in
  fun w => main_loop (S (List.length (stdin w))) player env 0 w.

(* ================================================================== *)
(** ** Vocabulary of the further properties *)


(** A line [ask_int] takes as the integer [n]. *)
Definition accepted (minv maxv : option Z) (line : str) (n : Z) : Prop :=
  let val := PyStr.strip line in
  integer_text val /\ PyStr.int val = Some n
  /\ below minv n = false /\ above maxv n = false.

(** A line all of whose digit characters are decimal digits. *)
Definition decimal_digits_only (line : str) : Prop :=
  forall c, In c line ->
    PyStr.isdigit_char c = true -> PyStr.isdecimal_char c = true.

(** A line that is none of the four choices of a menu. *)
Definition invalid_choice (line : str) : Prop :=
  let c := PyStr.strip line in
  c <> lit "1" /\ c <> lit "2" /\ c <> lit "3" /\ c <> lit "4".

(** The three rows of the difficulty menu that need no further input. *)
Definition fixed_row (choice : str) (d : Difficulty) : Prop :=
  (choice = lit "1" /\ d = (lit "Easy", 1, 10, 6))
  \/ (choice = lit "2" /\ d = (lit "Medium", 1, 50, 7))
  \/ (choice = lit "3" /\ d = (lit "Hard", 1, 100, 8)).

(** A computation that takes its input from the front of the pending
    lines and puts nothing back. *)
Definition takes_lines {A} (m : M A) : Prop :=
  forall w,
    match final_world (m w) with
    | Some w' => exists taken, stdin w = taken ++ stdin w'
    | None => True
    end.

(** A computation that only adds to what is written on the terminal. *)
Definition appends_output {A} (m : M A) : Prop :=
  forall w,
    match final_world (m w) with
    | Some w' => exists out, stdout w' = stdout w ++ out
    | None => True
    end.

(** Two records that neither sorts before the other. *)
Definition same_key (r x : ScoreRecord) : bool :=
  negb (key_lt (key r) (key x)) && negb (key_lt (key x) (key r)).

(** The line of the leaderboard for the record [s] at rank [i]. *)
Definition leaderboard_row (i : Z) (s : ScoreRecord) : list frag :=
  [IntF i; Text (lit ". "); PadF (Text (name s)) 12;
   Text (lit " | attempts: "); PadF (IntF (attempts s)) 2;
   Text (lit " | time: "); PadF (FloatF (time_taken s)) 5;
   Text (lit "s | "); PadF (Text (difficulty s)) 6;
   Text (lit " | "); LocalTimeF (timestamp s)].

(** The rows of a leaderboard whose first rank is [i]. *)
Fixpoint leaderboard_rows (i : Z) (l : list ScoreRecord) : list output :=
  match l with
  | [] => []
  | s :: l' => Print (leaderboard_row i s) :: leaderboard_rows (i + 1) l'
  end.

(** A score file that is the file [f0], or that holds at most 20 records
    in ascending order. *)
Definition tidy (f0 f : file) : Prop :=
  f = f0
  \/ exists l,
       f = Stored l /\ (List.length l <= 20)%nat /\ StronglySorted key_le l.

(** A round environment that is the same for every round. *)
Definition fixed_env (rnd : Z) : nat -> round_env :=
  fun _ => mkEnv rnd (0 # 1) (10 # 1) (1700000000 # 1).

(** A terminal on which every digit character still to be read is a
    decimal digit. *)
Definition clean (w : world) : Prop :=
  Forall decimal_digits_only (stdin w).

(** A computation that, started on a clean terminal, does not raise,
    leaves the terminal clean and returns only values that satisfy
    [Q]. *)
Definition safe {A} (m : M A) (Q : A -> Prop) : Prop :=
  forall w, clean w ->
    match m w with
    | Return a w' => clean w' /\ Q a
    | Raise _ _ => False
    | AwaitInput _ => True
    | FuelOut => True
    end.


(** The line printed when a custom range is empty. *)
Definition empty_range_message : output :=
  Print [Text (lit "Upper bound must be greater than lower bound.")].




(** A computation after which the score file is tidy with respect to
    the file it found. *)
Definition keeps_tidy {A} (m : M A) : Prop :=
  forall w,
    match final_world (m w) with
    | Some w' => tidy (disk w) (disk w')
    | None => True
    end.


(** The menu [main] shows before each choice, with its prompt. *)
Definition menu_banner : list output :=
  [Print [Text nl; Text (lit "Menu:")];
   Print [Text (lit "  1) Play")];
   Print [Text (lit "  2) Leaderboard")];
   Print [Text (lit "  3) About / Help")];
   Print [Text (lit "  4) Exit")];
   Prompt [Text (lit "Choose 1/2/3/4: ")]].

(** A session: a name, a won round on the easy level, a look at the
    leaderboard and the exit. *)
Definition session_start : world :=
  mkWorld (map lit ["Zoe"; "1"; "1"; "3"; "7"; "2"; "4"; "left over"]) []
    Missing.

(** [x] put behind the records that do not sort after it: where the
    stable sort leaves a record appended to a sorted list. *)
Fixpoint insert_behind (x : ScoreRecord) (l : list ScoreRecord)
    : list ScoreRecord :=
  match l with
  | [] => [x]
  | y :: l' =>
      if key_lt (key x) (key y) then x :: l else y :: insert_behind x l'
  end.

(** A line that [ask_int] takes as a guess within the bounds, and that
    is not the secret. *)
Definition wrong_guess (low high secret : Z) (line : str) : Prop :=
  exists g, accepted (Some low) (Some high) line g /\ g <> secret.

(** A round on the easy level won at the fourth guess, with a line
    left over. *)
Definition fourth_guess_start : world :=
  mkWorld (map lit ["1"; "1"; "5"; "9"; "7"; "x"]) [] Missing.

(* ================================================================== *)
(** * Properties *)

(** ** Strings *)

Lemma eqb_eq (a b : str) : PyStr.eqb a b = true <-> a = b.
Proof.
  unfold PyStr.eqb. destruct (list_eq_dec N.eq_dec a b); split; congruence.
Qed.

Example lit_ascii : lit "42" = [52; 50]%N.
Proof. reflexivity. Qed.

Example lit_superscript_two : lit "²" = [178]%N.
Proof. reflexivity. Qed.

Example lit_em_dash : lit "—" = [8212]%N.
Proof. reflexivity. Qed.

Example int_minus_seven : PyStr.int (lit " -07 ") = Some (-7).
Proof. reflexivity. Qed.

Example int_superscript : PyStr.int (lit "²") = None.
Proof. reflexivity. Qed.

Example isdigit_superscript : PyStr.isdigit (lit "²") = true.
Proof. reflexivity. Qed.

Example ask_int_reprompts :
  ask_int [] (Some 1) (Some 10) (on_lines [""; "abc"; "11"; " 7 "; "3"])
  = Return 7
      (mkWorld [lit "3"]
         [Prompt []; Print [Text (lit "Please enter a value.")];
          Prompt []; Print [Text (lit "That's not an integer. Try again.")];
          Prompt [];
          Print [Text (lit "Enter an integer"); Text (lit " between ");
                 IntF 1; Text (lit " and "); IntF 10; Text (lit ".")];
          Prompt []]
         Missing).
Proof. reflexivity. Qed.

Example round2_half_even : round2 (2675 # 1000) = (67 # 25)%Q.
Proof. reflexivity. Qed.

Example int_arabic_indic : PyStr.int (lit "٤٢") = Some 42.
Proof. reflexivity. Qed.

Example custom_rejects_empty_range :
  exists w',
    choose_difficulty (on_lines ["4"; "5"; "3"; "4"; "1"; "9"; "0"; "2"])
    = Return (lit "Custom", 1, 9, 2) w'
    /\ stdin w' = [].
Proof. eexists. split; vm_compute; reflexivity. Qed.

Example leaderboard_one_row :
  show_leaderboard (idle (Stored [record_of (sample_call 3)]))
  = Return tt
      (mkWorld []
         [Print [Text nl; Text (lit "--- Leaderboard (best first) ---")];
          Print [IntF 1; Text (lit ". "); PadF (Text (lit "Ann")) 12;
                 Text (lit " | attempts: "); PadF (IntF 3) 2;
                 Text (lit " | time: "); PadF (FloatF (7 # 2)) 5;
                 Text (lit "s | "); PadF (Text (lit "Easy")) 6;
                 Text (lit " | "); LocalTimeF 1700000000];
          Print [Text (lit "-------------------------------"); Text nl]]
         (Stored [record_of (sample_call 3)])).
Proof. reflexivity. Qed.

Example round2_down : round2 (12344 # 10000) = (123 # 100)%Q.
Proof. reflexivity. Qed.

(** ** The order on keys *)

Lemma key_lt_before (a b : ScoreRecord) :
  key_lt (key a) (key b) = true <-> key_before a b.
Proof.
  unfold key_lt, key_before, key; simpl.
  destruct (Z.eqb_spec (attempts a) (attempts b)) as [E | E].
  - rewrite (Qlt_alt (time_taken a) (time_taken b)).
    destruct (time_taken a ?= time_taken b)%Q; split; intro H;
      try discriminate; try reflexivity;
      try (right; split; [exact E | reflexivity]);
      destruct H as [H | [_ H]]; solve [lia | discriminate].
  - rewrite Z.ltb_lt.
    split; [now left | intros [H | [H _]]; [exact H | contradiction]].
Qed.

Lemma key_lt_false_le (a b : ScoreRecord) :
  key_lt (key b) (key a) = false <-> key_le a b.
Proof.
  unfold key_lt, key_le, key; simpl.
  destruct (Z.eqb_spec (attempts b) (attempts a)) as [E | E].
  - rewrite (Qle_alt (time_taken a) (time_taken b)).
    rewrite <- (Qcompare_antisym (time_taken a) (time_taken b)).
    destruct (time_taken a ?= time_taken b)%Q; simpl; split; intro H;
      try discriminate; try reflexivity;
      try (right; split; [now symmetry | discriminate]).
    destruct H as [H | [_ H]]; [lia | now elim H].
  - rewrite Z.ltb_ge. split; [intro; left; lia | intros [H | [H _]]; lia].
Qed.

Lemma key_before_le (a b : ScoreRecord) : key_before a b -> key_le a b.
Proof.
  intros [H | [H1 H2]]; [now left |].
  right; split; [exact H1 | now apply Qlt_le_weak].
Qed.


Lemma key_le_trans (a b c : ScoreRecord) :
  key_le a b -> key_le b c -> key_le a c.
Proof.
  intros [H | [H1 H2]] [K | [K1 K2]]; [left; lia | left; lia | left; lia |].
  right; split; [congruence | now apply Qle_trans with (time_taken b)].
Qed.

Lemma key_le_total (a b : ScoreRecord) : key_le a b \/ key_le b a.
Proof.
  destruct (key_lt (key b) (key a)) eqn:E.
  - right. apply key_before_le, key_lt_before, E.
  - left. apply key_lt_false_le, E.
Qed.

(** ** The stable sort *)

Lemma insert_perm (x : ScoreRecord) (l : list ScoreRecord) :
  Permutation (insert x l) (x :: l).
Proof.
  induction l as [| y l IH]; simpl.
  - apply Permutation_refl.
  - destruct (key_lt (key y) (key x)).
    + apply perm_trans with (y :: x :: l).
      * now apply perm_skip.
      * apply perm_swap.
    + apply Permutation_refl.
Qed.

Lemma sorted_perm (l : list ScoreRecord) : Permutation (sorted l) l.
Proof.
  induction l as [| x l IH]; simpl.
  - apply perm_nil.
  - apply perm_trans with (x :: sorted l).
    + apply insert_perm.
    + now apply perm_skip.
Qed.

Lemma sorted_length (l : list ScoreRecord) :
  List.length (sorted l) = List.length l.
Proof. apply Permutation_length, sorted_perm. Qed.

Lemma insert_Sorted (x : ScoreRecord) (l : list ScoreRecord) :
  Sorted key_le l -> Sorted key_le (insert x l).
Proof.
  induction 1 as [| y l Hs IH Hd]; simpl.
  - repeat constructor.
  - destruct (key_lt (key y) (key x)) eqn:E.
    + constructor; [exact IH |].
      apply key_lt_before, key_before_le in E.
      destruct Hd as [| z l Hz]; simpl.
      * now constructor.
      * destruct (key_lt (key z) (key x)); now constructor.
    + apply key_lt_false_le in E.
      constructor; [now constructor | now constructor].
Qed.

Lemma sorted_Sorted (l : list ScoreRecord) : Sorted key_le (sorted l).
Proof.
  induction l as [| x l IH]; simpl; [constructor | now apply insert_Sorted].
Qed.

Lemma sorted_StronglySorted (l : list ScoreRecord) :
  StronglySorted key_le (sorted l).
Proof.
  apply Sorted_StronglySorted; [| apply sorted_Sorted].
  intros a b c. apply key_le_trans.
Qed.

Lemma Forall_firstn {A} (P : A -> Prop) (n : nat) (l : list A) :
  Forall P l -> Forall P (firstn n l).
Proof.
  intros H. revert n.
  induction H as [| x l Hx Hl IH]; intros [| n]; simpl; auto.
Qed.


Lemma StronglySorted_firstn {A} (R : A -> A -> Prop) (n : nat) (l : list A) :
  StronglySorted R l -> StronglySorted R (firstn n l).
Proof.
  intros H. revert n.
  induction H as [| x l Hs IH Hx]; intros [| n]; simpl; try constructor.
  - apply IH.
  - now apply Forall_firstn.
Qed.

(** A list already in order is left as it is. *)
Lemma sorted_id (l : list ScoreRecord) : Sorted key_le l -> sorted l = l.
Proof.
  induction 1 as [| x l Hs IH Hd]; simpl; [reflexivity |].
  rewrite IH. destruct Hd as [| y l Hy]; simpl; [reflexivity |].
  apply key_lt_false_le in Hy. now rewrite Hy.
Qed.



Lemma filter_insert (p : ScoreRecord -> bool) (x : ScoreRecord)
    (s : list ScoreRecord) :
  (forall a b, p a = true -> p b = true -> key_lt (key a) (key b) = false) ->
  filter p (insert x s) = filter p (x :: s).
Proof.
  intros Hp. induction s as [| y s IH]; [reflexivity |].
  cbn [insert]. destruct (key_lt (key y) (key x)) eqn:E; [| reflexivity].
  cbn [filter] in *. rewrite IH.
  destruct (p x) eqn:Px; [| reflexivity].
  destruct (p y) eqn:Py; [| reflexivity].
  rewrite (Hp y x Py Px) in E. discriminate.
Qed.

(** The sort is stable: records that do not differ in their keys keep the
    order they had. *)
Lemma sorted_stable (p : ScoreRecord -> bool) (l : list ScoreRecord) :
  (forall a b, p a = true -> p b = true -> key_lt (key a) (key b) = false) ->
  filter p (sorted l) = filter p l.
Proof.
  intros Hp. induction l as [| x l IH]; [reflexivity |].
  cbn [sorted fold_right]. fold (sorted l).
  rewrite (filter_insert p x (sorted l) Hp). cbn [filter]. now rewrite IH.
Qed.

Lemma key_before_irrefl (r : ScoreRecord) : ~ key_before r r.
Proof.
  intros [H | [_ H]]; [lia | exact (Qlt_irrefl _ H)].
Qed.

Lemma firstn_firstn_app {A} (n : nat) (a b : list A) :
  firstn n (firstn n a ++ b) = firstn n (a ++ b).
Proof.
  revert a; induction n as [| n IH]; intros [| x a]; simpl; try reflexivity.
  now rewrite IH.
Qed.

Lemma StronglySorted_app_r {A} (R : A -> A -> Prop) (a b : list A) :
  StronglySorted R (a ++ b) -> StronglySorted R b.
Proof.
  induction a as [| x a IH]; simpl; [trivial |].
  intros H. apply StronglySorted_inv in H. now apply IH.
Qed.

Lemma StronglySorted_app_l {A} (R : A -> A -> Prop) (a b : list A) :
  StronglySorted R (a ++ b) -> StronglySorted R a.
Proof.
  induction a as [| x a IH]; simpl; intros H; [constructor |].
  apply StronglySorted_inv in H. destruct H as [Hs Hx].
  apply Forall_app in Hx. constructor; tauto.
Qed.

Lemma StronglySorted_firstn_app {A} (R : A -> A -> Prop) (n : nat)
    (a b : list A) :
  StronglySorted R (a ++ b) -> StronglySorted R (firstn n a ++ b).
Proof.
  revert n; induction a as [| x a IH]; intros n H.
  - now destruct n.
  - destruct n as [| n]; simpl.
    + now apply StronglySorted_app_r with (a := x :: a).
    + simpl in H. apply StronglySorted_inv in H. destruct H as [Hs Hx].
      constructor; [now apply IH |].
      apply Forall_app in Hx. destruct Hx as [Ha Hb].
      apply Forall_app. split; [now apply Forall_firstn | exact Hb].
Qed.

Lemma StronglySorted_weaken {A} (R S : A -> A -> Prop) (l : list A) :
  (forall a b, R a b -> S a b) -> StronglySorted R l -> StronglySorted S l.
Proof.
  intros HRS. induction 1 as [| x l Hs IH Hx]; constructor; auto.
  eapply Forall_impl; [| exact Hx]. auto.
Qed.

(** ** Score store *)

#[local] Arguments firstn : simpl never.
#[local] Arguments skipn : simpl never.

Lemma load_scores_eq (w : world) :
  load_scores w = Return (scores_of (disk w)) w.
Proof.
  unfold load_scores, bind, read_disk. now destruct (disk w).
Qed.

Lemma save_score_eq (nm : str) (att : Z) (secs : Q) (diff : str) (clock : Q)
    (w : world) :
  save_score nm att secs diff clock w
  = Return tt
      (set_disk
         (Stored (saved (disk w)
                    (mkScore nm att (round2 secs) diff (int_of_float clock))))
         w).
Proof.
  unfold save_score, bind. now rewrite load_scores_eq.
Qed.

Lemma save_eq (c : save_call) (w : world) :
  save c w = Return tt (set_disk (Stored (saved (disk w) (record_of c))) w).
Proof. apply save_score_eq. Qed.

Lemma saves_eq (cs : list save_call) (w : world) :
  saves cs w = Return tt (set_disk (store_after (disk w) cs) w).
Proof.
  revert w. induction cs as [| c cs IH]; intros w; simpl.
  - now destruct w.
  - unfold bind. rewrite save_eq, IH. reflexivity.
Qed.

Lemma saved_length (f : file) (r : ScoreRecord) :
  (List.length (saved f r) <= 20)%nat.
Proof. apply firstn_le_length. Qed.

Lemma saved_StronglySorted (f : file) (r : ScoreRecord) :
  StronglySorted key_le (saved f r).
Proof. apply StronglySorted_firstn, sorted_StronglySorted. Qed.



(** Saves in strictly ascending key order append, up to the capacity. *)
Lemma store_after_ascending (cs : list save_call) (f : file) :
  (List.length (scores_of f) <= 20)%nat ->
  StronglySorted key_before (scores_of f ++ map record_of cs) ->
  scores_of (store_after f cs) = firstn 20 (scores_of f ++ map record_of cs).
Proof.
  revert f. induction cs as [| c cs IH]; intros f Hlen Hs; simpl.
  - rewrite app_nil_r. symmetry. now apply firstn_all2.
  - assert (Hs' : StronglySorted key_before
                    ((scores_of f ++ [record_of c]) ++ map record_of cs)).
    { now rewrite <- app_assoc. }
    assert (E : saved f (record_of c)
                = firstn 20 (scores_of f ++ [record_of c])).
    { unfold saved. f_equal. apply sorted_id, StronglySorted_Sorted.
      apply StronglySorted_weaken with (R := key_before);
        [exact key_before_le |].
      now apply StronglySorted_app_l with (b := map record_of cs). }
    rewrite IH; simpl; rewrite E.
    + rewrite firstn_firstn_app. now rewrite <- app_assoc.
    + apply firstn_le_length.
    + now apply StronglySorted_firstn_app.
Qed.

Lemma store_after_Stored (cs : list save_call) (l : list ScoreRecord) :
  exists l', store_after (Stored l) cs = Stored l'.
Proof.
  revert l. induction cs as [| c cs IH]; intros l; simpl.
  - now exists l.
  - apply IH.
Qed.

Lemma records_ascending (cs : list save_call) :
  StronglySorted Z.lt (map c_attempts cs) ->
  StronglySorted key_before (map record_of cs).
Proof.
  induction cs as [| c cs IH]; simpl; intros H; [constructor |].
  apply StronglySorted_inv in H. destruct H as [Hs Hc].
  constructor; [now apply IH |].
  rewrite Forall_map in *. eapply Forall_impl; [| exact Hc].
  intros a Ha. now left.
Qed.

(** C1. Whatever the score file holds and whatever is saved, [save_score]
    returns and leaves a file that holds at most 20 records, in ascending
    order of (attempts, time_taken). *)
Theorem save_score_bounded_sorted (nm : str) (att : Z) (secs : Q)
    (diff : str) (clock : Q) (w : world) :
  exists l,
    save_score nm att secs diff clock w = Return tt (set_disk (Stored l) w)
    /\ (List.length l <= 20)%nat
    /\ StronglySorted key_le l.
Proof.
  eexists. split; [apply save_score_eq |].
  split; [apply saved_length | apply saved_StronglySorted].
Qed.



(** C7. From an empty store, 25 saves whose attempts are 1, 2, ..., 25 in
    this order leave exactly the records of the first 20 saves, those
    with attempts 1..20; the records with attempts 21..25 are gone. *)
Theorem twenty_five_saves_keep_first_twenty (cs : list save_call)
    (w : world) :
  scores_of (disk w) = [] ->
  map c_attempts cs = map Z.of_nat (seq 1 25) ->
  exists w',
    saves cs w = Return tt w'
    /\ disk w' = Stored (map record_of (firstn 20 cs))
    /\ map attempts (scores_of (disk w')) = map Z.of_nat (seq 1 20)
    /\ Forall (fun r => ~ In r (scores_of (disk w')))
         (map record_of (skipn 20 cs)).
Proof.
  intros He Ha.
  assert (Hs : StronglySorted Z.lt (map c_attempts cs)).
  { rewrite Ha. repeat constructor. }
  assert (E : scores_of (store_after (disk w) cs)
              = map record_of (firstn 20 cs)).
  { rewrite store_after_ascending; rewrite He; simpl.
    - apply firstn_map.
    - lia.
    - now apply records_ascending. }
  assert (D : store_after (disk w) cs = Stored (map record_of (firstn 20 cs))).
  { destruct cs as [| c cs]; [discriminate |].
    simpl in *. destruct (store_after_Stored cs (saved (disk w) (record_of c)))
      as [l' Hl'].
    rewrite Hl' in *. simpl in E. now rewrite E. }
  assert (A : map attempts (map record_of (firstn 20 cs))
              = map Z.of_nat (seq 1 20)).
  { rewrite map_map. change (fun x => attempts (record_of x)) with c_attempts.
    rewrite <- firstn_map, Ha. reflexivity. }
  exists (set_disk (store_after (disk w) cs) w).
  split; [apply saves_eq |]. simpl. rewrite D. simpl.
  split; [reflexivity |]. split; [exact A |].
  rewrite Forall_map. apply Forall_forall. intros c Hc Hin.
  apply (in_map attempts) in Hin. rewrite A in Hin.
  apply (in_map c_attempts) in Hc. rewrite <- skipn_map, Ha in Hc.
  change (attempts (record_of c)) with (c_attempts c) in Hin.
  remember (c_attempts c) as a eqn:Ea. clear Ea.
  vm_compute in Hc. vm_compute in Hin.
  repeat (destruct Hc as [Hc | Hc];
          [subst a;
           repeat (destruct Hin as [Hin | Hin]; [discriminate |]);
           exact Hin |]).
  exact Hc.
Qed.

Lemma twenty_five_saves_witness :
  exists w',
    saves (sample_calls 25) (idle Missing) = Return tt w'
    /\ disk w' = Stored (map record_of (firstn 20 (sample_calls 25)))
    /\ map attempts (scores_of (disk w')) = map Z.of_nat (seq 1 20)
    /\ Forall (fun r => ~ In r (scores_of (disk w')))
         (map record_of (skipn 20 (sample_calls 25))).
Proof.
  apply (twenty_five_saves_keep_first_twenty (sample_calls 25) (idle Missing)).
  - reflexivity.
  - reflexivity.
Defined.

(** C8. [load_scores] returns the empty list, and raises nothing, when
    the score file is absent and when reading it fails; with the file
    absent, [show_leaderboard] prints the line telling that there is no
    leaderboard yet, and nothing else. *)
Theorem load_scores_fails_open (w : world) :
  (path_exists (disk w) = false \/ json_load (disk w) = None ->
   load_scores w = Return [] w)
  /\ (path_exists (disk w) = false ->
      show_leaderboard w = Return tt (emit (Print no_leaderboard) w)).
Proof.
  split.
  - intros H. rewrite load_scores_eq.
    destruct (disk w); simpl in *; [reflexivity | reflexivity |].
    destruct H; discriminate.
  - intros H. unfold show_leaderboard, bind. rewrite load_scores_eq.
    destruct (disk w); simpl in *; [reflexivity | discriminate | discriminate].
Qed.

Lemma load_scores_fails_open_witness :
  load_scores (idle Missing) = Return [] (idle Missing)
  /\ load_scores (idle Unreadable) = Return [] (idle Unreadable)
  /\ show_leaderboard (idle Missing)
     = Return tt (emit (Print no_leaderboard) (idle Missing)).
Proof.
  split; [| split].
  - apply (proj1 (load_scores_fails_open (idle Missing))).
    left. reflexivity.
  - apply (proj1 (load_scores_fails_open (idle Unreadable))).
    right. reflexivity.
  - apply (proj2 (load_scores_fails_open (idle Missing))).
    reflexivity.
Defined.



(** ** Input reader *)

Lemma isdigit_all_digits (s : str) :
  PyStr.isdigit s = true <-> all_digits s.
Proof.
  unfold PyStr.isdigit, all_digits. rewrite andb_true_iff, forallb_forall,
    Forall_forall.
  destruct s; simpl; split; intros [H1 H2]; split; auto; congruence.
Qed.

Lemma guard_integer_text (s : str) :
  PyStr.isdigit s
  || (PyStr.startswith_minus s && PyStr.isdigit (PyStr.tail1 s)) = true
  <-> integer_text s.
Proof.
  unfold integer_text.
  rewrite orb_true_iff, andb_true_iff, !isdigit_all_digits.
  split; intros [H | H]; auto; right.
  - destruct H as [Hm Hd]. destruct s as [| c s]; [discriminate |].
    simpl in *. apply N.eqb_eq in Hm. subst c. now exists s.
  - destruct H as [rest [E Hd]]. subst s. simpl. now split.
Qed.

(** One turn of the loop of [ask_int]. *)
Lemma ask_int_loop_step (fuel : nat) (prompt : list frag)
    (minv maxv : option Z) (w : world) :
  ask_int_loop (S fuel) prompt minv maxv w
  = match stdin w with
    | [] => AwaitInput (emit (Prompt prompt) w)
    | line :: rest =>
        let w1 := mkWorld rest (stdout w ++ [Prompt prompt]) (disk w) in
        let val := PyStr.strip line in
        if PyStr.falsy val then
          ask_int_loop fuel prompt minv maxv
            (emit (Print [Text (lit "Please enter a value.")]) w1)
        else if PyStr.isdigit val
                || (PyStr.startswith_minus val
                    && PyStr.isdigit (PyStr.tail1 val)) then
          match PyStr.int val with
          | None => Raise ValueError w1
          | Some n =>
              if below minv n || above maxv n then
                ask_int_loop fuel prompt minv maxv
                  (emit (Print ([Text (lit "Enter an integer")]
                                ++ rng minv maxv ++ [Text (lit ".")])) w1)
              else Return n w1
          end
        else
          ask_int_loop fuel prompt minv maxv
            (emit (Print [Text (lit "That's not an integer. Try again.")]) w1)
    end.
Proof.
  cbn [ask_int_loop]. unfold bind at 1. unfold input. cbn [stdin emit].
  destruct (stdin w) as [| line rest]; [reflexivity |].
  cbv zeta.
  destruct (PyStr.falsy (PyStr.strip line)); [reflexivity |].
  destruct (PyStr.isdigit (PyStr.strip line)
            || (PyStr.startswith_minus (PyStr.strip line)
                && PyStr.isdigit (PyStr.tail1 (PyStr.strip line))));
    [| reflexivity].
  destruct (PyStr.int (PyStr.strip line)) as [n |]; [| reflexivity].
  destruct (below minv n || above maxv n); reflexivity.
Qed.

(** What a returned value tells: the line taken last is integer text
    that reads as the value, the value is within the bounds given, and
    the lines before it were all taken and turned down. *)
Lemma ask_int_loop_return (fuel : nat) (prompt : list frag)
    (minv maxv : option Z) (w w' : world) (n : Z) :
  ask_int_loop fuel prompt minv maxv w = Return n w' ->
  below minv n = false /\ above maxv n = false
  /\ exists skipped line,
       stdin w = skipped ++ line :: stdin w'
       /\ integer_text (PyStr.strip line)
       /\ PyStr.int (PyStr.strip line) = Some n.
Proof.
  revert w. induction fuel as [| fuel IH]; intros w H; [discriminate |].
  rewrite ask_int_loop_step in H.
  destruct (stdin w) as [| line rest] eqn:Ein; [discriminate |].
  cbv zeta in H.
  assert (K : forall o, ask_int_loop fuel prompt minv maxv
                (emit o (mkWorld rest (stdout w ++ [Prompt prompt]) (disk w)))
              = Return n w' ->
              below minv n = false /\ above maxv n = false
              /\ exists skipped line0,
                   line :: rest = skipped ++ line0 :: stdin w'
                   /\ integer_text (PyStr.strip line0)
                   /\ PyStr.int (PyStr.strip line0) = Some n).
  { intros o Ho. apply IH in Ho. destruct Ho as [Hb [Ha [sk [l0 [E R]]]]].
    split; [exact Hb |]. split; [exact Ha |].
    exists (line :: sk), l0. simpl in E. rewrite E. now split. }
  destruct (PyStr.falsy (PyStr.strip line)); [now apply K in H |].
  destruct (PyStr.isdigit (PyStr.strip line)
            || (PyStr.startswith_minus (PyStr.strip line)
                && PyStr.isdigit (PyStr.tail1 (PyStr.strip line)))) eqn:G;
    [| now apply K in H].
  destruct (PyStr.int (PyStr.strip line)) as [m |] eqn:I; [| discriminate].
  destruct (below minv m || above maxv m) eqn:B; [now apply K in H |].
  inversion H; subst m w'; clear H.
  apply orb_false_iff in B. destruct B as [Hb Ha].
  split; [exact Hb |]. split; [exact Ha |].
  exists [], line. simpl. split; [reflexivity |].
  split; [now apply guard_integer_text | exact I].
Qed.

(** The loop of [ask_int] never uses up fuel that exceeds the number of
    pending lines. *)
Lemma ask_int_loop_fuel (fuel : nat) (prompt : list frag)
    (minv maxv : option Z) (w : world) :
  (List.length (stdin w) < fuel)%nat ->
  ask_int_loop fuel prompt minv maxv w <> FuelOut.
Proof.
  revert w. induction fuel as [| fuel IH]; intros w H; [lia |].
  rewrite ask_int_loop_step.
  destruct (stdin w) as [| line rest] eqn:Ein; [discriminate |].
  cbv zeta. simpl in H.
  assert (K : forall o, ask_int_loop fuel prompt minv maxv
                (emit o (mkWorld rest (stdout w ++ [Prompt prompt]) (disk w)))
              <> FuelOut).
  { intros o. apply IH. simpl. lia. }
  destruct (PyStr.falsy (PyStr.strip line)); [apply K |].
  destruct (PyStr.isdigit (PyStr.strip line)
            || (PyStr.startswith_minus (PyStr.strip line)
                && PyStr.isdigit (PyStr.tail1 (PyStr.strip line))));
    [| apply K].
  destruct (PyStr.int (PyStr.strip line)) as [m |]; [| discriminate].
  destruct (below minv m || above maxv m); [apply K | discriminate].
Qed.

Lemma ask_int_total (prompt : list frag) (minv maxv : option Z) (w : world) :
  ask_int prompt minv maxv w <> FuelOut.
Proof. apply ask_int_loop_fuel. lia. Qed.

(** C4. A value [ask_int] returns under bounds [lo] and [hi] lies in
    [lo, hi]; and it returns only by taking a line whose text, white
    space stripped, is an integer as written: digits only after an
    optional leading minus. *)
Theorem ask_int_bounded_integer (prompt : list frag) (lo hi : Z)
    (w w' : world) (n : Z) :
  ask_int prompt (Some lo) (Some hi) w = Return n w' ->
  lo <= n <= hi
  /\ exists skipped line,
       stdin w = skipped ++ line :: stdin w'
       /\ integer_text (PyStr.strip line)
       /\ PyStr.int (PyStr.strip line) = Some n.
Proof.
  intros H. apply ask_int_loop_return in H.
  destruct H as [Hb [Ha R]]. simpl in Hb, Ha.
  split; [lia | exact R].
Qed.

Lemma ask_int_bounded_integer_witness :
  1 <= 7 <= 10
  /\ exists skipped line,
       map lit [""; "abc"; "11"; " 7 "; "3"] = skipped ++ line :: [lit "3"]
       /\ integer_text (PyStr.strip line)
       /\ PyStr.int (PyStr.strip line) = Some 7.
Proof.
  apply (ask_int_bounded_integer [] 1 10
           (on_lines [""; "abc"; "11"; " 7 "; "3"])
           (mkWorld [lit "3"]
              [Prompt []; Print [Text (lit "Please enter a value.")];
               Prompt [];
               Print [Text (lit "That's not an integer. Try again.")];
               Prompt [];
               Print [Text (lit "Enter an integer"); Text (lit " between ");
                      IntF 1; Text (lit " and "); IntF 10; Text (lit ".")];
               Prompt []]
              Missing)
           7).
  reflexivity.
Defined.

(** C3. [ask_int] is meant never to fail, whatever is typed.  A line made
    of a digit that is no decimal digit, such as the superscript two,
    passes the [isdigit] test and then makes [int] raise [ValueError],
    which [ask_int] lets through. *)
Theorem ask_int_raises_on_superscript_two :
  ask_int [] None None (on_lines ["²"])
  = Raise ValueError (mkWorld [] [Prompt []] Missing).
Proof. reflexivity. Qed.


(** ** Difficulty selector *)

Lemma ask_int_return (prompt : list frag) (minv maxv : option Z)
    (w w' : world) (n : Z) :
  ask_int prompt minv maxv w = Return n w' ->
  below minv n = false /\ above maxv n = false
  /\ exists taken, stdin w = taken ++ stdin w' /\ taken <> [].
Proof.
  intros H. apply ask_int_loop_return in H.
  destruct H as [Hb [Ha [sk [l [E _]]]]].
  split; [exact Hb |]. split; [exact Ha |].
  exists (sk ++ [l]). rewrite <- app_assoc. split; [exact E |].
  now destruct sk.
Qed.

(** One turn of the menu loop. *)
Lemma choose_difficulty_loop_step (fuel : nat) (w : world) :
  choose_difficulty_loop (S fuel) w
  = match stdin w with
    | [] => AwaitInput (emit (Prompt [Text (lit "Enter 1/2/3/4: ")]) w)
    | line :: rest =>
        let w1 := mkWorld rest
                    (stdout w ++ [Prompt [Text (lit "Enter 1/2/3/4: ")]])
                    (disk w) in
        let choice := PyStr.strip line in
        if PyStr.eqb choice (lit "1") then Return (lit "Easy", 1, 10, 6) w1
        else if PyStr.eqb choice (lit "2") then
          Return (lit "Medium", 1, 50, 7) w1
        else if PyStr.eqb choice (lit "3") then
          Return (lit "Hard", 1, 100, 8) w1
        else if PyStr.eqb choice (lit "4") then
          (low <- ask_int [Text (lit "Enter lower bound (integer): ")]
                    None None ;;
           high <- ask_int
                     [Text (lit "Enter upper bound (integer, > lower): ")]
                     None None ;;
           if high <=? low then
             print [Text (lit
               "Upper bound must be greater than lower bound.")] ;;;
             choose_difficulty_loop fuel
           else
             att <- ask_int [Text (lit "Enter max attempts (>=1): ")]
                      (Some 1) None ;;
             ret (lit "Custom", low, high, att)) w1
        else
          choose_difficulty_loop fuel
            (emit (Print [Text (lit "Invalid choice, try again.")]) w1)
    end.
Proof.
  cbn [choose_difficulty_loop]. unfold bind at 1. unfold input.
  cbn [stdin emit].
  destruct (stdin w) as [| line rest]; [reflexivity |].
  cbv zeta.
  destruct (PyStr.eqb (PyStr.strip line) (lit "1")); [reflexivity |].
  destruct (PyStr.eqb (PyStr.strip line) (lit "2")); [reflexivity |].
  destruct (PyStr.eqb (PyStr.strip line) (lit "3")); [reflexivity |].
  destruct (PyStr.eqb (PyStr.strip line) (lit "4")); reflexivity.
Qed.


(** The menu loop never uses up fuel that exceeds the number of pending
    lines. *)
Lemma choose_difficulty_loop_fuel (fuel : nat) (w : world) :
  (List.length (stdin w) < fuel)%nat ->
  choose_difficulty_loop fuel w <> FuelOut.
Proof.
  revert w. induction fuel as [| fuel IH]; intros w H; [lia |].
  rewrite choose_difficulty_loop_step.
  destruct (stdin w) as [| line rest] eqn:Ein; [discriminate |].
  cbv zeta. simpl in H.
  destruct (PyStr.eqb (PyStr.strip line) (lit "1")); [discriminate |].
  destruct (PyStr.eqb (PyStr.strip line) (lit "2")); [discriminate |].
  destruct (PyStr.eqb (PyStr.strip line) (lit "3")); [discriminate |].
  destruct (PyStr.eqb (PyStr.strip line) (lit "4")).
  - unfold bind at 1.
    destruct (ask_int _ None None _) as [low w2 | | |] eqn:A1;
      try discriminate; [| now apply ask_int_total in A1].
    unfold bind at 1.
    destruct (ask_int _ None None w2) as [high w3 | | |] eqn:A2;
      try discriminate; [| now apply ask_int_total in A2].
    apply ask_int_return in A1. destruct A1 as [_ [_ [t1 [T1 _]]]].
    apply ask_int_return in A2. destruct A2 as [_ [_ [t2 [T2 _]]]].
    simpl in T1.
    destruct (high <=? low).
    + unfold bind, print. apply IH. simpl.
      apply (f_equal (@List.length str)) in T1, T2.
      rewrite length_app in T1, T2. lia.
    + unfold bind at 1.
      destruct (ask_int _ (Some 1) None w3) as [att w4 | | |] eqn:A3;
        try discriminate. now apply ask_int_total in A3.
  - apply IH. simpl. lia.
Qed.

Lemma choose_difficulty_eq (w : world) :
  exists w0,
    stdin w0 = stdin w /\ disk w0 = disk w
    /\ choose_difficulty w
       = choose_difficulty_loop (S (List.length (stdin w0))) w0.
Proof.
  unfold choose_difficulty, bind, print. cbv beta iota.
  eexists. split; [| split].
  3: reflexivity.
  all: reflexivity.
Qed.

Lemma choose_difficulty_total (w : world) : choose_difficulty w <> FuelOut.
Proof.
  destruct (choose_difficulty_eq w) as [w0 [_ [_ E]]]. rewrite E.
  apply choose_difficulty_loop_fuel. lia.
Qed.



(** ** What touches the score file *)

Lemma keeps_disk_ret {A} (a : A) : keeps_disk (ret a).
Proof. intros w. reflexivity. Qed.

Lemma keeps_disk_raise {A} (e : exn) : keeps_disk (@raise A e).
Proof. intros w. reflexivity. Qed.

Lemma keeps_disk_print (line : list frag) : keeps_disk (print line).
Proof. intros w. reflexivity. Qed.

Lemma keeps_disk_input (prompt : list frag) : keeps_disk (input prompt).
Proof. intros w. unfold input. simpl. now destruct (stdin w). Qed.

Lemma keeps_disk_bind {A B} (m : M A) (k : A -> M B) :
  keeps_disk m -> (forall a, keeps_disk (k a)) -> keeps_disk (bind m k).
Proof.
  intros Hm Hk w. unfold bind. specialize (Hm w).
  destruct (m w) as [a w1 | e w1 | w1 |]; simpl in *; auto.
  specialize (Hk a w1). destruct (final_world (k a w1)); [congruence | exact I].
Qed.

Create HintDb disk.

#[local] Hint Resolve keeps_disk_ret keeps_disk_raise keeps_disk_print
  keeps_disk_input : disk.

Ltac keeps :=
  repeat first
    [ apply keeps_disk_bind; [| intros ?]
    | solve [auto with disk]
    | match goal with
      | |- keeps_disk (if ?b then _ else _) => destruct b
      | |- keeps_disk (match ?o with Some _ => _ | None => _ end) =>
          destruct o
      end ].

Lemma keeps_disk_ask_int_loop (fuel : nat) (prompt : list frag)
    (minv maxv : option Z) :
  keeps_disk (ask_int_loop fuel prompt minv maxv).
Proof.
  induction fuel as [| fuel IH]; [intros w; exact I |].
  cbn [ask_int_loop]. keeps.
Qed.

Lemma keeps_disk_ask_int (prompt : list frag) (minv maxv : option Z) :
  keeps_disk (ask_int prompt minv maxv).
Proof. intros w. apply keeps_disk_ask_int_loop. Qed.

#[local] Hint Resolve keeps_disk_ask_int : disk.

Lemma keeps_disk_choose_difficulty_loop (fuel : nat) :
  keeps_disk (choose_difficulty_loop fuel).
Proof.
  induction fuel as [| fuel IH]; [intros w; exact I |].
  cbn [choose_difficulty_loop]. keeps.
Qed.

Lemma keeps_disk_choose_difficulty : keeps_disk choose_difficulty.
Proof.
  unfold choose_difficulty. keeps.
  intros w. apply keeps_disk_choose_difficulty_loop.
Qed.

Lemma keeps_disk_guess_loop (fuel : nat)
    (low high max_attempts secret att : Z) :
  keeps_disk (guess_loop fuel low high max_attempts secret att).
Proof.
  revert att. induction fuel as [| fuel IH]; intros att; [intros w; exact I |].
  cbn [guess_loop]. keeps.
Qed.

Lemma keeps_disk_randint (low high rnd : Z) : keeps_disk (randint low high rnd).
Proof. unfold randint. keeps. Qed.

Lemma keeps_disk_leaderboard_name (nm : option str) :
  keeps_disk (leaderboard_name nm).
Proof. unfold leaderboard_name. destruct nm as [n |]; keeps. Qed.

#[local] Hint Resolve keeps_disk_choose_difficulty keeps_disk_randint
  keeps_disk_leaderboard_name : disk.

Lemma round_effect_bind {A} (clock : Q) (m : M A)
    (k : A -> M (bool * Z * Q * str)) :
  keeps_disk m -> (forall a, round_effect clock (k a)) ->
  round_effect clock (bind m k).
Proof.
  intros Hm Hk w. unfold bind. specialize (Hm w).
  destruct (m w) as [a w1 | e w1 | w1 |]; simpl in *; auto.
  specialize (Hk a w1). rewrite Hm in Hk. exact Hk.
Qed.

Lemma play_round_effect (nm : option str) (rnd : Z) (start stop clock : Q) :
  round_effect clock (play_round nm rnd start stop clock).
Proof.
  unfold play_round.
  apply round_effect_bind; [auto with disk |]. intros [[[diff low] high] mx].
  apply round_effect_bind; [auto with disk |]. intros secret.
  apply round_effect_bind; [auto with disk |]. intros _.
  apply round_effect_bind.
  { intros w. apply keeps_disk_guess_loop. }
  intros [guessed att]. destruct guessed.
  - intros w. unfold bind, print.
    assert (K := keeps_disk_leaderboard_name nm
                   (emit (Print
                      [Text (lit "Attempts: "); IntF att;
                       Text (lit ", Time: "); FloatF (round2 (stop - start));
                       Text (lit "s, Difficulty: "); Text diff])
                   (emit (Print
                      [Text nl; Text (lit "🎉 Correct! The number was ");
                       IntF secret; Text (lit ".")]) w))).
    destruct (leaderboard_name nm _) as [n w1 | e w1 | w1 |];
      simpl in K; simpl; auto.
    rewrite save_score_eq. unfold ret. cbn [set_disk emit disk].
    exists n. now rewrite K.
  - intros w. unfold bind, print, ret. reflexivity.
Qed.

(** C9. A round that ends lost saves nothing: the score file is what it
    was before the round.  A round changes the file only by returning
    won. *)
Theorem lost_round_saves_nothing (nm : option str) (rnd : Z)
    (start stop clock : Q) (w : world) :
  (forall att secs diff w',
      play_round nm rnd start stop clock w
      = Return (false, att, secs, diff) w' ->
      disk w' = disk w)
  /\ (forall w',
        final_world (play_round nm rnd start stop clock w) = Some w' ->
        disk w' <> disk w ->
        exists att secs diff,
          play_round nm rnd start stop clock w
          = Return (true, att, secs, diff) w').
Proof.
  assert (H := play_round_effect nm rnd start stop clock w).
  split.
  - intros att secs diff w' E. rewrite E in H. exact H.
  - intros w' E Hd.
    destruct (play_round nm rnd start stop clock w)
      as [[[[g att] secs] diff] w1 | e w1 | w1 |]; simpl in *;
      try (injection E as E; subst w1; contradiction); try discriminate.
    injection E as E; subst w1.
    destruct g; [now exists att, secs, diff | contradiction].
Qed.

Lemma lost_round_saves_nothing_witness :
  disk (world_after lost_round lost_round_start) = Stored full_store.
Proof.
  apply (proj1 (lost_round_saves_nothing (Some (lit "Player")) 6 (0 # 1)
                  (10 # 1) (1700000000 # 1) lost_round_start)
           6 (10 # 1)%Q (lit "Easy")).
  vm_compute. reflexivity.
Defined.

(** ** Guess session *)

Lemma guess_loop_wrong (fuel : nat) (low high max_attempts secret att g : Z)
    (w w1 : world) :
  att < max_attempts ->
  ask_int (guess_prompt (att + 1) max_attempts) (Some low) (Some high) w
  = Return g w1 ->
  g <> secret ->
  guess_loop (S fuel) low high max_attempts secret att w
  = guess_loop fuel low high max_attempts secret (att + 1)
      (emit (Print (nope low high secret g)) w1).
Proof.
  intros Ha Hg Hne. cbn [guess_loop].
  apply Z.ltb_lt in Ha. rewrite Ha. unfold bind at 1. rewrite Hg.
  apply Z.eqb_neq in Hne. rewrite Hne. reflexivity.
Qed.

(** C5. After a wrong guess [g] within the bounds the round prints a
    hint: "higher" when [g] is below the secret and "lower" otherwise;
    with W = high - low and d = |secret - g| > 0 the note is "very close"
    when d <= max(1, W div 20), else "close" when d <= max(1, W div 5),
    else empty.  On the range 1..10 with secret 7 the guesses 1, 5, 9, 7
    get the hints higher, higher, lower, and the round is won at the
    fourth attempt. *)
Theorem wrong_guess_hint (low high secret g : Z) :
  low <= secret <= high ->
  low <= g <= high ->
  g <> secret ->
  let W := high - low in
  let d := Z.abs (secret - g) in
  0 < d
  /\ (g < secret -> hint_of secret g = lit "higher")
  /\ (~ g < secret -> hint_of secret g = lit "lower")
  /\ (d <= Z.max 1 (W / 20) ->
      closeness_of low high secret g = lit " (very close!)")
  /\ (~ d <= Z.max 1 (W / 20) -> d <= Z.max 1 (W / 5) ->
      closeness_of low high secret g = lit " (close)")
  /\ (~ d <= Z.max 1 (W / 5) -> closeness_of low high secret g = lit "")
  /\ (forall fuel max_attempts att w w1,
        att < max_attempts ->
        ask_int (guess_prompt (att + 1) max_attempts) (Some low) (Some high) w
        = Return g w1 ->
        guess_loop (S fuel) low high max_attempts secret att w
        = guess_loop fuel low high max_attempts secret (att + 1)
            (emit (Print [Text (lit "Nope — try "); Text (hint_of secret g);
                          Text (lit ".");
                          Text (closeness_of low high secret g); Text nl])
               w1))
  /\ (forall nm start stop clock,
        exists w',
          play_round nm 6 start stop clock
            (on_lines ["1"; "1"; "5"; "9"; "7"; "Ann"])
          = Return (true, 4, (stop - start)%Q, lit "Easy") w'
          /\ hints_of (stdout w')
             = [(lit "higher", lit ""); (lit "higher", lit "");
                (lit "lower", lit "")]).
Proof.
  intros Hs Hg Hne W d.
  assert (Hd : 0 < d) by (unfold d; lia).
  assert (Hw : W / 20 <= W / 5).
  { assert (0 <= W) by (unfold W; lia).
    assert (0 <= W / 20) by (apply Z.div_pos; lia).
    apply Z.div_le_lower_bound; [lia |].
    assert (20 * (W / 20) <= W) by (apply Z.mul_div_le; lia). lia. }
  assert (E0 : (d =? 0) = false) by (apply Z.eqb_neq; lia).
  assert (C : closeness_of low high secret g
              = if d <=? Z.max 1 (W / 20) then lit " (very close!)"
                else if d <=? Z.max 1 (W / 5) then lit " (close)"
                else lit "").
  { unfold closeness_of. fold d. fold W. now rewrite E0. }
  split; [exact Hd |].
  split; [intros H; unfold hint_of; apply Z.ltb_lt in H; now rewrite H |].
  split; [intros H; unfold hint_of; apply Z.ltb_nlt in H; now rewrite H |].
  split; [intros H; rewrite C; apply Z.leb_le in H; now rewrite H |].
  split.
  { intros H1 H2. rewrite C. apply Z.leb_nle in H1. apply Z.leb_le in H2.
    now rewrite H1, H2. }
  split.
  { intros H. rewrite C. assert (H1 : ~ d <= Z.max 1 (W / 20)) by lia.
    apply Z.leb_nle in H, H1. now rewrite H, H1. }
  split.
  { intros fuel mx att w w1 Ha Hask.
    now apply (guess_loop_wrong fuel low high mx secret att g w w1). }
  intros nm start stop clock.
  destruct nm as [[| c n] |]; eexists;
    (split; [vm_compute; reflexivity | vm_compute; reflexivity]).
Qed.

Lemma wrong_guess_hint_witness :
  0 < Z.abs (50 - 48)
  /\ hint_of 50 48 = lit "higher"
  /\ closeness_of 1 100 50 48 = lit " (very close!)".
Proof.
  destruct (wrong_guess_hint 1 100 50 48) as [H0 [H1 [_ [H3 _]]]];
    [lia | lia | lia |].
  split; [exact H0 |].
  split; [apply H1; lia | apply H3; vm_compute; discriminate].
Defined.

(** The guessing loop never uses up fuel that exceeds the number of
    pending lines. *)
Lemma guess_loop_fuel (fuel : nat) (low high max_attempts secret att : Z)
    (w : world) :
  (List.length (stdin w) < fuel)%nat ->
  guess_loop fuel low high max_attempts secret att w <> FuelOut.
Proof.
  revert att w. induction fuel as [| fuel IH]; intros att w H; [lia |].
  cbn [guess_loop]. destruct (att <? max_attempts); [| discriminate].
  unfold bind at 1.
  destruct (ask_int _ (Some low) (Some high) w) as [g w1 | | |] eqn:A;
    try discriminate; [| now apply ask_int_total in A].
  apply ask_int_return in A. destruct A as [_ [_ [t [T Hne]]]].
  destruct (g =? secret); [discriminate |].
  unfold bind, print. apply IH. simpl.
  apply (f_equal (@List.length str)) in T. rewrite length_app in T.
  destruct t; [contradiction | simpl in T; lia].
Qed.

(** A round always ends: it returns, raises, or waits for input. *)
Lemma play_round_total (nm : option str) (rnd : Z) (start stop clock : Q)
    (w : world) :
  play_round nm rnd start stop clock w <> FuelOut.
Proof.
  unfold play_round. unfold bind at 1.
  destruct (choose_difficulty w) as [[[[diff low] high] mx] w1 | | |] eqn:C;
    try discriminate; [| now apply choose_difficulty_total in C].
  unfold bind at 1. unfold randint.
  destruct (low <=? high); [| discriminate].
  unfold ret at 1. unfold bind at 1. unfold print at 1. unfold bind at 1.
  match goal with
  | |- context [guess_loop ?f ?a ?b ?c ?d ?e ?v] =>
      assert (G := guess_loop_fuel f a b c d e v);
      destruct (guess_loop f a b c d e v) as [[guessed att] w2 | | |]
  end; try discriminate; [| exfalso; apply G; [lia | reflexivity]].
  destruct guessed.
  - unfold bind, print.
    destruct (leaderboard_name nm _) as [n w3 | | |] eqn:L;
      try discriminate.
    + rewrite save_score_eq. discriminate.
    + unfold leaderboard_name, bind, input in L. simpl in L.
      destruct nm as [[| c n] |]; simpl in L;
        try discriminate; destruct (stdin w2); discriminate.
  - unfold bind, print, ret. discriminate.
Qed.

(* ================================================================== *)
(** * Further properties *)

(** ** Score store *)

Lemma StronglySorted_app_le {A} (R : A -> A -> Prop) (a b : list A) :
  StronglySorted R (a ++ b) ->
  Forall (fun y => Forall (fun x => R x y) a) b.
Proof.
  induction a as [| x a IH]; simpl; intros H.
  - apply Forall_forall. intros y _. constructor.
  - apply StronglySorted_inv in H. destruct H as [Hs Hx].
    apply Forall_app in Hx. destruct Hx as [_ Hb].
    specialize (IH Hs). rewrite Forall_forall in *.
    intros y Hy. constructor; [now apply Hb | now apply IH].
Qed.

(** X1. While the file holds fewer than 20 records, [save_score] keeps
    all of them and adds the new one. *)
Theorem save_score_under_capacity (nm : str) (att : Z) (secs : Q)
    (diff : str) (clock : Q) (w : world) :
  (List.length (scores_of (disk w)) < 20)%nat ->
  let new := mkScore nm att (round2 secs) diff (int_of_float clock) in
  exists l,
    save_score nm att secs diff clock w = Return tt (set_disk (Stored l) w)
    /\ In new l
    /\ Permutation l (scores_of (disk w) ++ [new])
    /\ List.length l = S (List.length (scores_of (disk w))).
Proof.
  intros Hlen new.
  exists (sorted (scores_of (disk w) ++ [new])).
  assert (P := sorted_perm (scores_of (disk w) ++ [new])).
  split.
  - rewrite save_score_eq. unfold saved. fold new.
    rewrite firstn_all2; [reflexivity |].
    rewrite sorted_length, length_app. simpl. lia.
  - split; [| split; [exact P |]].
    + apply (Permutation_in _ (Permutation_sym P)).
      apply in_or_app. right. now left.
    + rewrite (Permutation_length P), length_app. simpl. lia.
Qed.

Lemma save_score_under_capacity_witness :
  let new := mkScore (lit "Bob") 2 (round2 (5 # 4)) (lit "Hard")
               (int_of_float (1700000001 # 1)) in
  exists l,
    save_score (lit "Bob") 2 (5 # 4) (lit "Hard") (1700000001 # 1)
      (idle (Stored [record_of (sample_call 3)]))
    = Return tt (idle (Stored l))
    /\ In new l
    /\ Permutation l ([record_of (sample_call 3)] ++ [new])
    /\ List.length l = 2%nat.
Proof.
  apply (save_score_under_capacity (lit "Bob") 2 (5 # 4) (lit "Hard")
           (1700000001 # 1) (idle (Stored [record_of (sample_call 3)]))).
  simpl. lia.
Defined.

(** X2. [save_score] keeps the best: the records it writes and the ones
    it drops are together the earlier records and the new one, and no
    dropped record sorts before a written one. *)
Theorem save_score_keeps_best (nm : str) (att : Z) (secs : Q) (diff : str)
    (clock : Q) (w : world) :
  let new := mkScore nm att (round2 secs) diff (int_of_float clock) in
  exists kept dropped,
    save_score nm att secs diff clock w
    = Return tt (set_disk (Stored kept) w)
    /\ Permutation (kept ++ dropped) (scores_of (disk w) ++ [new])
    /\ Forall (fun d => Forall (fun k => key_le k d) kept) dropped
    /\ List.length dropped
       = (S (List.length (scores_of (disk w))) - 20)%nat.
Proof.
  intros new.
  set (all := sorted (scores_of (disk w) ++ [new])).
  exists (firstn 20 all), (skipn 20 all).
  split; [apply save_score_eq |].
  split; [rewrite firstn_skipn; apply sorted_perm |].
  split.
  - apply StronglySorted_app_le. rewrite firstn_skipn.
    apply sorted_StronglySorted.
  - rewrite length_skipn. unfold all.
    rewrite sorted_length, length_app. simpl. lia.
Qed.

Lemma same_key_class (r a b : ScoreRecord) :
  same_key r a = true -> same_key r b = true ->
  key_lt (key a) (key b) = false.
Proof.
  unfold same_key. rewrite !andb_true_iff, !negb_true_iff.
  intros [Ha1 Ha2] [Hb1 Hb2].
  apply key_lt_false_le. apply key_lt_false_le in Ha2, Hb1.
  now apply key_le_trans with r.
Qed.

Lemma same_key_refl (r : ScoreRecord) : same_key r r = true.
Proof.
  unfold same_key.
  assert (H : key_lt (key r) (key r) = false).
  { destruct (key_lt (key r) (key r)) eqn:E; [| reflexivity].
    apply key_lt_before in E. now elim (key_before_irrefl r). }
  now rewrite H.
Qed.

(** X3. Ties keep their order: among the records whose key equals that
    of the new record, the sort of [save_score] leaves the earlier ones
    in the order they had and puts the new one after them. *)
Theorem save_score_ties_after_earlier (prior : list ScoreRecord)
    (new : ScoreRecord) :
  filter (same_key new) (sorted (prior ++ [new]))
  = filter (same_key new) prior ++ [new].
Proof.
  rewrite (sorted_stable (same_key new) (prior ++ [new]) (same_key_class new)).
  rewrite filter_app. simpl. now rewrite same_key_refl.
Qed.



Lemma print_rows_eq (l : list ScoreRecord) (i : Z) (w : world) :
  print_rows i l w
  = Return tt
      (mkWorld (stdin w) (stdout w ++ leaderboard_rows i l) (disk w)).
Proof.
  revert i w. induction l as [| s l IH]; intros i w; simpl.
  - rewrite app_nil_r. now destruct w.
  - unfold bind, print. rewrite IH. simpl.
    now rewrite <- app_assoc.
Qed.





(** ** Input reader *)










Lemma falsy_false (val : str) : val <> [] -> PyStr.falsy val = false.
Proof. destruct val; [contradiction | reflexivity]. Qed.

Lemma integer_text_nonempty (val : str) : integer_text val -> val <> [].
Proof.
  intros [[H _] | [rest [E _]]]; [exact H | subst; discriminate].
Qed.


Lemma ask_int_loop_accepted (fuel : nat) (prompt : list frag)
    (minv maxv : option Z) (w : world) (line : str) (rest : list str)
    (n : Z) :
  stdin w = line :: rest ->
  accepted minv maxv line n ->
  ask_int_loop (S fuel) prompt minv maxv w
  = Return n (mkWorld rest (stdout w ++ [Prompt prompt]) (disk w)).
Proof.
  intros Ein [Hi [Hn [Hb Ha]]]. rewrite ask_int_loop_step, Ein. cbv zeta.
  rewrite (falsy_false _ (integer_text_nonempty _ Hi)).
  apply guard_integer_text in Hi. rewrite Hi, Hn, Hb, Ha. reflexivity.
Qed.












(** ** Difficulty selector *)

Lemma ask_int_accepted_head (prompt : list frag) (minv maxv : option Z)
    (line : str) (rest : list str) (out : list output) (d : file) (n : Z) :
  accepted minv maxv line n ->
  ask_int prompt minv maxv (mkWorld (line :: rest) out d)
  = Return n (mkWorld rest (out ++ [Prompt prompt]) d).
Proof.
  intros Ha. unfold ask_int.
  now rewrite (ask_int_loop_accepted _ prompt minv maxv
                 (mkWorld (line :: rest) out d) line rest n eq_refl Ha).
Qed.

Lemma fixed_row_return (fuel : nat) (line : str) (rest : list str)
    (out : list output) (f : file) (d : Difficulty) :
  fixed_row (PyStr.strip line) d ->
  choose_difficulty_loop (S fuel) (mkWorld (line :: rest) out f)
  = Return d
      (mkWorld rest (out ++ [Prompt [Text (lit "Enter 1/2/3/4: ")]]) f).
Proof.
  intros H. rewrite choose_difficulty_loop_step. cbn [stdin stdout disk].
  cbv zeta.
  destruct H as [[Hc Hd] | [[Hc Hd] | [Hc Hd]]]; rewrite Hc, Hd; reflexivity.
Qed.

Lemma invalid_choice_eqb (line : str) :
  invalid_choice line ->
  PyStr.eqb (PyStr.strip line) (lit "1") = false
  /\ PyStr.eqb (PyStr.strip line) (lit "2") = false
  /\ PyStr.eqb (PyStr.strip line) (lit "3") = false
  /\ PyStr.eqb (PyStr.strip line) (lit "4") = false.
Proof.
  intros [H1 [H2 [H3 H4]]].
  repeat split;
    match goal with
    | |- PyStr.eqb ?a ?b = false =>
        destruct (PyStr.eqb a b) eqn:E; [apply eqb_eq in E; contradiction |
                                         reflexivity]
    end.
Qed.

Lemma choose_difficulty_loop_skip (skipped : list str) (fuel : nat)
    (tail : list str) (out : list output) (f : file) :
  Forall invalid_choice skipped ->
  exists out',
    List.length out' = (2 * List.length skipped)%nat
    /\ choose_difficulty_loop (List.length skipped + fuel)
         (mkWorld (skipped ++ tail) out f)
       = choose_difficulty_loop fuel (mkWorld tail (out ++ out') f).
Proof.
  intros H. revert out. induction H as [| line skipped Hl Hs IH]; intros out.
  - exists []. split; [reflexivity |]. simpl. now rewrite app_nil_r.
  - destruct (invalid_choice_eqb line Hl) as [E1 [E2 [E3 E4]]].
    destruct (IH ((out ++ [Prompt [Text (lit "Enter 1/2/3/4: ")]])
                  ++ [Print [Text (lit "Invalid choice, try again.")]]))
      as [out' [Hlen E]].
    exists ([Prompt [Text (lit "Enter 1/2/3/4: ")];
             Print [Text (lit "Invalid choice, try again.")]] ++ out').
    split; [rewrite length_app, Hlen; simpl; lia |].
    cbn [List.length Nat.add app]. rewrite choose_difficulty_loop_step.
    cbn [stdin stdout disk]. cbv zeta. rewrite E1, E2, E3, E4.
    unfold emit. cbn [stdin stdout disk]. rewrite E.
    now rewrite <- !app_assoc.
Qed.

Lemma choose_difficulty_unfold (w : world) :
  exists banner,
    List.length banner = 5%nat
    /\ choose_difficulty w
       = choose_difficulty_loop (S (List.length (stdin w)))
           (mkWorld (stdin w) (stdout w ++ banner) (disk w)).
Proof.
  unfold choose_difficulty, bind, print, emit. cbn [stdin stdout disk].
  eexists. split; [| rewrite <- !app_assoc; reflexivity]. reflexivity.
Qed.

(** X9. The difficulty menu turns down every line that is none of 1, 2,
    3, 4 with a message and asks again; the first of the choices 1, 2, 3
    returns its row and leaves the later lines unread. *)
Theorem choose_difficulty_skips_invalid (w : world) (skipped : list str)
    (line : str) (rest : list str) (d : Difficulty) :
  stdin w = skipped ++ line :: rest ->
  Forall invalid_choice skipped ->
  fixed_row (PyStr.strip line) d ->
  exists out,
    choose_difficulty w = Return d (mkWorld rest (stdout w ++ out) (disk w))
    /\ List.length out = (5 + 2 * List.length skipped + 1)%nat.
Proof.
  intros Ein Hs Hd.
  destruct (choose_difficulty_unfold w) as [banner [Hb E]].
  rewrite E, Ein.
  replace (S (List.length (skipped ++ line :: rest)))
    with (List.length skipped + S (S (List.length rest)))%nat
    by (rewrite length_app; simpl; lia).
  destruct (choose_difficulty_loop_skip skipped (S (S (List.length rest)))
              (line :: rest) (stdout w ++ banner) (disk w) Hs)
    as [out' [Hlen E2]].
  rewrite E2, (fixed_row_return _ line rest _ _ d Hd).
  exists (banner ++ out' ++ [Prompt [Text (lit "Enter 1/2/3/4: ")]]).
  split; [now rewrite <- !app_assoc |].
  rewrite !length_app, Hb, Hlen. simpl. lia.
Qed.

Lemma choose_difficulty_skips_invalid_witness :
  exists out,
    choose_difficulty (on_lines ["5"; ""; "hard"; " 3"; "x"])
    = Return (lit "Hard", 1, 100, 8) (mkWorld [lit "x"] ([] ++ out) Missing)
    /\ List.length out = (5 + 2 * 3 + 1)%nat.
Proof.
  apply (choose_difficulty_skips_invalid
           (on_lines ["5"; ""; "hard"; " 3"; "x"])
           [lit "5"; lit ""; lit "hard"] (lit " 3") [lit "x"]).
  - reflexivity.
  - repeat (apply Forall_cons; [repeat split; discriminate |]).
    apply Forall_nil.
  - right. right. split; reflexivity.
Defined.

(** X10. Choice 4 followed by a lower bound, a greater upper bound and a
    number of attempts of at least 1 returns the custom row made of
    these three numbers. *)
Theorem choose_difficulty_custom (w : world) (c l1 l2 l3 : str)
    (rest : list str) (lo hi att : Z) :
  stdin w = c :: l1 :: l2 :: l3 :: rest ->
  PyStr.strip c = lit "4" ->
  accepted None None l1 lo ->
  accepted None None l2 hi ->
  lo < hi ->
  accepted (Some 1) None l3 att ->
  exists w',
    choose_difficulty w = Return (lit "Custom", lo, hi, att) w'
    /\ stdin w' = rest /\ disk w' = disk w.
Proof.
  intros Ein Hc H1 H2 Hlt H3.
  destruct (choose_difficulty_unfold w) as [banner [_ E]].
  rewrite E, Ein, choose_difficulty_loop_step. cbn [stdin stdout disk].
  cbv zeta. rewrite Hc. cbn [PyStr.eqb].
  change (PyStr.eqb (lit "4") (lit "1")) with false.
  change (PyStr.eqb (lit "4") (lit "2")) with false.
  change (PyStr.eqb (lit "4") (lit "3")) with false.
  change (PyStr.eqb (lit "4") (lit "4")) with true. cbv iota.
  unfold bind at 1. rewrite (ask_int_accepted_head _ _ _ l1 _ _ _ lo H1).
  unfold bind at 1. rewrite (ask_int_accepted_head _ _ _ l2 _ _ _ hi H2).
  apply Z.leb_gt in Hlt. rewrite Hlt.
  unfold bind at 1. rewrite (ask_int_accepted_head _ _ _ l3 _ _ _ att H3).
  eexists. split; [reflexivity | split; reflexivity].
Qed.

Lemma choose_difficulty_custom_witness :
  exists w',
    choose_difficulty (on_lines ["4"; "-5"; "5"; "3"; "x"])
    = Return (lit "Custom", -5, 5, 3) w'
    /\ stdin w' = [lit "x"] /\ disk w' = Missing.
Proof.
  apply (choose_difficulty_custom (on_lines ["4"; "-5"; "5"; "3"; "x"])
           (lit "4") (lit "-5") (lit "5") (lit "3") [lit "x"] (-5) 5 3).
  - reflexivity.
  - reflexivity.
  - split; [apply guard_integer_text; reflexivity |].
    split; [reflexivity | split; reflexivity].
  - split; [apply guard_integer_text; reflexivity |].
    split; [reflexivity | split; reflexivity].
  - lia.
  - split; [apply guard_integer_text; reflexivity |].
    split; [reflexivity | split; reflexivity].
Defined.

(** X11. A custom range whose upper bound is not above the lower bound is
    turned down with a message, and the next line is read as a choice of
    the menu again, not as a new bound. *)
Theorem choose_difficulty_empty_range_back_to_menu (w : world)
    (c l1 l2 c2 : str) (rest : list str) (lo hi : Z) (d : Difficulty) :
  stdin w = c :: l1 :: l2 :: c2 :: rest ->
  PyStr.strip c = lit "4" ->
  accepted None None l1 lo ->
  accepted None None l2 hi ->
  hi <= lo ->
  fixed_row (PyStr.strip c2) d ->
  exists w',
    choose_difficulty w = Return d w'
    /\ stdin w' = rest
    /\ In empty_range_message (stdout w').
Proof.
  intros Ein Hc H1 H2 Hle Hd.
  destruct (choose_difficulty_unfold w) as [banner [_ E]].
  rewrite E, Ein. cbn [List.length].
  rewrite choose_difficulty_loop_step. cbn [stdin stdout disk].
  cbv zeta. rewrite Hc.
  change (PyStr.eqb (lit "4") (lit "1")) with false.
  change (PyStr.eqb (lit "4") (lit "2")) with false.
  change (PyStr.eqb (lit "4") (lit "3")) with false.
  change (PyStr.eqb (lit "4") (lit "4")) with true. cbv iota.
  unfold bind at 1. rewrite (ask_int_accepted_head _ _ _ l1 _ _ _ lo H1).
  unfold bind at 1. rewrite (ask_int_accepted_head _ _ _ l2 _ _ _ hi H2).
  apply Z.leb_le in Hle. rewrite Hle.
  unfold bind, print, emit. cbn [stdin stdout disk].
  rewrite (fixed_row_return _ c2 rest _ _ d Hd).
  eexists. split; [reflexivity |]. split; [reflexivity |].
  cbn [stdout]. apply in_or_app. left. apply in_or_app. right. now left.
Qed.

Lemma choose_difficulty_empty_range_witness :
  exists w',
    choose_difficulty (on_lines ["4"; "5"; "5"; "1"; "x"])
    = Return (lit "Easy", 1, 10, 6) w'
    /\ stdin w' = [lit "x"]
    /\ In empty_range_message (stdout w').
Proof.
  apply (choose_difficulty_empty_range_back_to_menu
           (on_lines ["4"; "5"; "5"; "1"; "x"])
           (lit "4") (lit "5") (lit "5") (lit "1") [lit "x"] 5 5).
  - reflexivity.
  - reflexivity.
  - split; [apply guard_integer_text; reflexivity |].
    split; [reflexivity | split; reflexivity].
  - split; [apply guard_integer_text; reflexivity |].
    split; [reflexivity | split; reflexivity].
  - lia.
  - left. split; reflexivity.
Defined.

(** ** Guess session *)

Lemma takes_lines_ret {A} (a : A) : takes_lines (ret a).
Proof. intros w. now exists []. Qed.

Lemma takes_lines_raise {A} (e : exn) : takes_lines (@raise A e).
Proof. intros w. now exists []. Qed.

Lemma takes_lines_print (line : list frag) : takes_lines (print line).
Proof. intros w. now exists []. Qed.

Lemma takes_lines_input (prompt : list frag) : takes_lines (input prompt).
Proof.
  intros w. unfold input. cbn [stdin emit].
  destruct (stdin w) as [| l rest] eqn:E; cbn [final_world stdin emit].
  - exists []. simpl. now rewrite E.
  - exists [l]. simpl. try rewrite E. reflexivity.
Qed.

Lemma takes_lines_bind {A B} (m : M A) (k : A -> M B) :
  takes_lines m -> (forall a, takes_lines (k a)) -> takes_lines (bind m k).
Proof.
  intros Hm Hk w. unfold bind. specialize (Hm w).
  destruct (m w) as [a w1 | e w1 | w1 |]; simpl in *; auto.
  specialize (Hk a w1). destruct (final_world (k a w1)); [| exact I].
  destruct Hm as [t1 E1]. destruct Hk as [t2 E2].
  exists (t1 ++ t2). now rewrite E1, E2, app_assoc.
Qed.

Create HintDb lines.

#[local] Hint Resolve takes_lines_ret takes_lines_raise takes_lines_print
  takes_lines_input : lines.

Ltac takes :=
  repeat first
    [ solve [auto with lines]
    | apply takes_lines_bind; [| intros ?]
    | match goal with
      | |- takes_lines (if ?b then _ else _) => destruct b
      | |- takes_lines (match ?o with Some _ => _ | None => _ end) =>
          destruct o
      | |- takes_lines (let '(_, _) := ?p in _) => destruct p
      end ].

Lemma takes_lines_ask_int_loop (fuel : nat) (prompt : list frag)
    (minv maxv : option Z) :
  takes_lines (ask_int_loop fuel prompt minv maxv).
Proof.
  induction fuel as [| fuel IH]; [intros w; exact I |].
  cbn [ask_int_loop]. takes.
Qed.

Lemma takes_lines_ask_int (prompt : list frag) (minv maxv : option Z) :
  takes_lines (ask_int prompt minv maxv).
Proof. intros w. apply takes_lines_ask_int_loop. Qed.

#[local] Hint Resolve takes_lines_ask_int : lines.

Lemma takes_lines_choose_difficulty_loop (fuel : nat) :
  takes_lines (choose_difficulty_loop fuel).
Proof.
  induction fuel as [| fuel IH]; [intros w; exact I |].
  cbn [choose_difficulty_loop]. takes.
Qed.

Lemma takes_lines_choose_difficulty : takes_lines choose_difficulty.
Proof.
  unfold choose_difficulty. takes.
  intros w. apply takes_lines_choose_difficulty_loop.
Qed.

Lemma takes_lines_guess_loop (fuel : nat)
    (low high max_attempts secret att : Z) :
  takes_lines (guess_loop fuel low high max_attempts secret att).
Proof.
  revert att. induction fuel as [| fuel IH]; intros att; [intros w; exact I |].
  cbn [guess_loop]. takes.
Qed.

Lemma takes_lines_randint (low high rnd : Z) :
  takes_lines (randint low high rnd).
Proof. unfold randint. takes. Qed.

Lemma takes_lines_leaderboard_name (nm : option str) :
  takes_lines (leaderboard_name nm).
Proof. unfold leaderboard_name. destruct nm as [n |]; takes. Qed.

Lemma takes_lines_save_score (nm : str) (att : Z) (secs : Q) (diff : str)
    (clock : Q) :
  takes_lines (save_score nm att secs diff clock).
Proof. intros w. rewrite save_score_eq. now exists []. Qed.

Lemma takes_lines_show_leaderboard : takes_lines show_leaderboard.
Proof.
  intros w. unfold show_leaderboard, bind. rewrite load_scores_eq.
  destruct (scores_of (disk w)); [now exists [] |].
  unfold print. rewrite print_rows_eq. now exists [].
Qed.

#[local] Hint Resolve takes_lines_choose_difficulty takes_lines_randint
  takes_lines_leaderboard_name takes_lines_save_score
  takes_lines_show_leaderboard : lines.

Lemma takes_lines_play_round (nm : option str) (rnd : Z)
    (start stop clock : Q) :
  takes_lines (play_round nm rnd start stop clock).
Proof.
  unfold play_round.
  apply takes_lines_bind; [auto with lines |]. intros [[[diff low] high] mx].
  apply takes_lines_bind; [auto with lines |]. intros secret.
  apply takes_lines_bind; [auto with lines |]. intros _.
  apply takes_lines_bind.
  { intros w. apply takes_lines_guess_loop. }
  intros [guessed att]. takes.
Qed.











(** X14. On the three fixed levels the note after a wrong guess depends
    on the distance d to the secret alone: on Easy it is "very close" for
    d = 1 and never "close"; on Medium "very close" up to 2 and "close"
    up to 9; on Hard "very close" up to 4 and "close" up to 19. *)
Theorem closeness_on_fixed_levels (secret g : Z) :
  let d := Z.abs (secret - g) in
  closeness_of 1 10 secret g
  = (if d =? 0 then lit ""
     else if d <=? 1 then lit " (very close!)" else lit "")
  /\ closeness_of 1 50 secret g
     = (if d =? 0 then lit ""
        else if d <=? 2 then lit " (very close!)"
        else if d <=? 9 then lit " (close)" else lit "")
  /\ closeness_of 1 100 secret g
     = (if d =? 0 then lit ""
        else if d <=? 4 then lit " (very close!)"
        else if d <=? 19 then lit " (close)" else lit "").
Proof.
  intros d. unfold closeness_of. fold d.
  change (Z.max 1 ((10 - 1) / 20)) with 1.
  change (Z.max 1 ((10 - 1) / 5)) with 1.
  change (Z.max 1 ((50 - 1) / 20)) with 2.
  change (Z.max 1 ((50 - 1) / 5)) with 9.
  change (Z.max 1 ((100 - 1) / 20)) with 4.
  change (Z.max 1 ((100 - 1) / 5)) with 19.
  split; [| split]; try reflexivity.
  destruct (d =? 0); [reflexivity |]. now destruct (d <=? 1).
Qed.

(** X15. On a range narrower than 5 the note "close" never appears: a
    wrong guess gets "very close" at distance 1 and no note beyond. *)
Theorem closeness_on_narrow_range (low high secret g : Z) :
  0 <= high - low < 5 ->
  g <> secret ->
  (Z.abs (secret - g) = 1 ->
   closeness_of low high secret g = lit " (very close!)")
  /\ (Z.abs (secret - g) <> 1 -> closeness_of low high secret g = lit "").
Proof.
  intros Hw Hne. unfold closeness_of.
  assert (E20 : (high - low) / 20 = 0) by (apply Z.div_small; lia).
  assert (E5 : (high - low) / 5 = 0) by (apply Z.div_small; lia).
  rewrite E20, E5. change (Z.max 1 0) with 1.
  assert (E0 : (Z.abs (secret - g) =? 0) = false) by (apply Z.eqb_neq; lia).
  rewrite E0. split; intros H.
  - rewrite H. reflexivity.
  - assert (L : (Z.abs (secret - g) <=? 1) = false)
      by (apply Z.leb_gt; lia).
    now rewrite L.
Qed.

Lemma closeness_on_narrow_range_witness :
  closeness_of 1 5 3 5 = lit "".
Proof.
  destruct (closeness_on_narrow_range 1 5 3 5) as [_ H]; [lia | lia |].
  apply H. vm_compute. discriminate.
Defined.

(** ** Menu loop *)

Lemma show_leaderboard_returns (w : world) :
  exists out,
    show_leaderboard w
    = Return tt (mkWorld (stdin w) (stdout w ++ out) (disk w)).
Proof.
  unfold show_leaderboard. unfold bind at 1. rewrite load_scores_eq.
  destruct (scores_of (disk w)) as [| s l].
  - exists [Print no_leaderboard]. reflexivity.
  - unfold bind, print. rewrite print_rows_eq. unfold emit.
    cbn [stdin stdout disk]. eexists. now rewrite <- !app_assoc.
Qed.

Lemma keeps_disk_show_leaderboard : keeps_disk show_leaderboard.
Proof.
  intros w. destruct (show_leaderboard_returns w) as [out E].
  now rewrite E.
Qed.

(** One turn of the loop of [main]. *)
Lemma main_loop_step (fuel : nat) (player : str) (env : nat -> round_env)
    (round : nat) (w : world) :
  main_loop (S fuel) player env round w
  = match stdin w with
    | [] => AwaitInput (mkWorld [] (stdout w ++ menu_banner) (disk w))
    | line :: rest =>
        let w1 := mkWorld rest (stdout w ++ menu_banner) (disk w) in
        let choice := PyStr.strip line in
        if PyStr.eqb choice (lit "1") then
          (play_round (Some player) (e_rnd (env round))
             (e_start (env round)) (e_stop (env round))
             (e_clock (env round)) ;;;
           main_loop fuel player env (S round)) w1
        else if PyStr.eqb choice (lit "2") then
          (show_leaderboard ;;; main_loop fuel player env round) w1
        else if PyStr.eqb choice (lit "3") then
          (print [Text nl; Text (lit "About:")] ;;;
           print [Text (lit
"  Guess the secret number in limited attempts. Hints will tell you higher/lower.")] ;;;
           print [Text (lit
"  Leaderboard stores best scores in 'scores.json' in the same folder.")] ;;;
           print [Text (lit
"  Tip: choosing a smaller range makes it easier; custom mode lets you practice.")] ;;;
           main_loop fuel player env round) w1
        else if PyStr.eqb choice (lit "4") then
          Return tt (emit (Print goodbye) w1)
        else
          main_loop fuel player env round
            (emit (Print [Text (lit "Invalid choice, try again.")]) w1)
    end.
Proof.
  destruct w as [lines out d]. cbn [main_loop].
  unfold bind at 1 2 3 4 5 6. unfold print at 1 2 3 4 5. unfold input.
  unfold emit. cbv zeta. cbn [stdin stdout disk].
  replace ((((((out ++ [Print [Text nl; Text (lit "Menu:")]])
               ++ [Print [Text (lit "  1) Play")]])
              ++ [Print [Text (lit "  2) Leaderboard")]])
             ++ [Print [Text (lit "  3) About / Help")]])
            ++ [Print [Text (lit "  4) Exit")]])
           ++ [Prompt [Text (lit "Choose 1/2/3/4: ")]])
    with (out ++ menu_banner)
    by (unfold menu_banner; now rewrite <- !app_assoc).
  destruct lines as [| line rest]; [reflexivity |].
  cbv zeta.
  destruct (PyStr.eqb (PyStr.strip line) (lit "1")); [reflexivity |].
  destruct (PyStr.eqb (PyStr.strip line) (lit "2")); [reflexivity |].
  destruct (PyStr.eqb (PyStr.strip line) (lit "3")); [reflexivity |].
  destruct (PyStr.eqb (PyStr.strip line) (lit "4")); reflexivity.
Qed.

Lemma main_unfold (env : nat -> round_env) (w : world) :
  main env w
  = match stdin w with
    | [] =>
        AwaitInput
          (mkWorld []
             (stdout w
              ++ [Print [Text (lit "=== Number Guessing Game ===")];
                  Prompt [Text (lit
                    "What's your name? (press Enter for 'Player'): ")]])
             (disk w))
    | line :: rest =>
        main_loop (S (List.length rest))
          (if PyStr.falsy (PyStr.strip line) then lit "Player"
           else PyStr.strip line)
          env 0
          (mkWorld rest
             (stdout w
              ++ [Print [Text (lit "=== Number Guessing Game ===")];
                  Prompt [Text (lit
                    "What's your name? (press Enter for 'Player'): ")]])
             (disk w))
    end.
Proof.
  destruct w as [lines out d].
  unfold main, bind, print, input, emit. cbv zeta. cbn [stdin stdout disk].
  rewrite <- !app_assoc. cbn [app].
  destruct lines as [| line rest]; reflexivity.
Qed.

#[local] Hint Resolve takes_lines_play_round : lines.

Lemma takes_lines_main_loop (fuel : nat) (player : str)
    (env : nat -> round_env) (round : nat) :
  takes_lines (main_loop fuel player env round).
Proof.
  revert round. induction fuel as [| fuel IH]; intros round;
    [intros w; exact I |].
  cbn [main_loop]. takes.
Qed.

Lemma tidy_refl (f : file) : tidy f f.
Proof. now left. Qed.

Lemma tidy_trans (f0 f1 f2 : file) : tidy f0 f1 -> tidy f1 f2 -> tidy f0 f2.
Proof.
  intros H1 [H2 | H2]; [now subst f2 | now right].
Qed.

Lemma keeps_tidy_of_keeps_disk {A} (m : M A) : keeps_disk m -> keeps_tidy m.
Proof.
  intros H w. specialize (H w).
  destruct (final_world (m w)); [left; exact H | exact I].
Qed.

Lemma keeps_tidy_bind {A B} (m : M A) (k : A -> M B) :
  keeps_tidy m -> (forall a, keeps_tidy (k a)) -> keeps_tidy (bind m k).
Proof.
  intros Hm Hk w. unfold bind. specialize (Hm w).
  destruct (m w) as [a w1 | e w1 | w1 |]; simpl in *; auto.
  specialize (Hk a w1). destruct (final_world (k a w1)); [| exact I].
  now apply tidy_trans with (disk w1).
Qed.

Lemma keeps_tidy_play_round (nm : option str) (rnd : Z)
    (start stop clock : Q) :
  keeps_tidy (play_round nm rnd start stop clock).
Proof.
  intros w. assert (H := play_round_effect nm rnd start stop clock w).
  destruct (play_round nm rnd start stop clock w)
    as [[[[g att] secs] diff] w1 | e w1 | w1 |]; simpl in *;
    try (left; exact H); try exact I.
  destruct g; [| left; exact H].
  destruct H as [n H]. right. eexists. split; [exact H |].
  split; [apply saved_length | apply saved_StronglySorted].
Qed.

Lemma keeps_tidy_main_loop (fuel : nat) (player : str)
    (env : nat -> round_env) (round : nat) :
  keeps_tidy (main_loop fuel player env round).
Proof.
  revert round. induction fuel as [| fuel IH]; intros round;
    [intros w; exact I |].
  cbn [main_loop].
  repeat (apply keeps_tidy_bind;
          [apply keeps_tidy_of_keeps_disk; auto with disk | intros ?]).
  repeat match goal with
         | |- keeps_tidy (if ?b then _ else _) => destruct b
         end.
  - apply keeps_tidy_bind; [apply keeps_tidy_play_round | intros _; apply IH].
  - apply keeps_tidy_bind;
      [apply keeps_tidy_of_keeps_disk, keeps_disk_show_leaderboard |
       intros _; apply IH].
  - repeat (apply keeps_tidy_bind;
            [apply keeps_tidy_of_keeps_disk; auto with disk | intros ?]).
    apply IH.
  - apply keeps_tidy_of_keeps_disk. auto with disk.
  - apply keeps_tidy_bind;
      [apply keeps_tidy_of_keeps_disk; auto with disk | intros _; apply IH].
Qed.

(** X16. However a session of [main] ends, the score file is the one it
    found, or it holds at most 20 records in ascending order of
    (attempts, time_taken). *)
Theorem main_leaves_store_tidy (env : nat -> round_env) (w w' : world) :
  final_world (main env w) = Some w' ->
  tidy (disk w) (disk w').
Proof.
  intros H.
  assert (K : keeps_tidy (main env)).
  { unfold main.
    repeat (apply keeps_tidy_bind;
            [apply keeps_tidy_of_keeps_disk; auto with disk | intros ?]).
    intros w0. apply keeps_tidy_main_loop. }
  specialize (K w). now rewrite H in K.
Qed.

Lemma main_leaves_store_tidy_witness :
  tidy (disk session_start)
    (disk (world_after (main (fixed_env 6)) session_start)).
Proof.
  apply (main_leaves_store_tidy (fixed_env 6) session_start
           (world_after (main (fixed_env 6)) session_start)).
  vm_compute. reflexivity.
Defined.

Lemma main_loop_return (fuel : nat) (player : str) (env : nat -> round_env)
    (round : nat) (w w' : world) :
  main_loop fuel player env round w = Return tt w' ->
  (exists out, stdout w' = out ++ [Print goodbye])
  /\ exists line, In line (stdin w) /\ PyStr.strip line = lit "4".
Proof.
  revert round w. induction fuel as [| fuel IH]; intros round w H;
    [discriminate |].
  rewrite main_loop_step in H.
  destruct (stdin w) as [| line rest] eqn:Ein; [discriminate |].
  cbv zeta in H.
  assert (K : forall r w1,
             (exists taken, rest = taken ++ stdin w1) ->
             main_loop fuel player env r w1 = Return tt w' ->
             (exists out, stdout w' = out ++ [Print goodbye])
             /\ exists l, In l (line :: rest) /\ PyStr.strip l = lit "4").
  { intros r w1 [taken Et] Hr. apply IH in Hr.
    destruct Hr as [Ho [l [Hin Hl]]]. split; [exact Ho |].
    exists l. split; [| exact Hl]. right. rewrite Et.
    apply in_or_app. now right. }
  destruct (PyStr.eqb (PyStr.strip line) (lit "1")).
  { unfold bind at 1 in H.
    match type of H with
    | context [play_round ?a ?b ?c ?d ?e ?v] =>
        assert (T := takes_lines_play_round a b c d e v);
        destruct (play_round a b c d e v) as [x w1 | | |];
          try discriminate
    end.
    simpl in T. now apply K in H. }
  destruct (PyStr.eqb (PyStr.strip line) (lit "2")).
  { unfold bind at 1 in H.
    match type of H with
    | context [show_leaderboard ?v] =>
        destruct (show_leaderboard_returns v) as [out E]; rewrite E in H
    end.
    apply K in H; [exact H | now exists []]. }
  destruct (PyStr.eqb (PyStr.strip line) (lit "3")).
  { unfold bind, print in H. apply K in H; [exact H | now exists []]. }
  destruct (PyStr.eqb (PyStr.strip line) (lit "4")) eqn:E4.
  { inversion H; subst. apply eqb_eq in E4. split.
    - simpl. now eexists.
    - exists line. split; [now left | exact E4]. }
  apply K in H; [exact H | now exists []].
Qed.

(** X17. [main] returns only through the exit: when it returns, a line
    typed after the name reads 4 once stripped, and the last thing
    written is the goodbye line. *)
Theorem main_returns_only_by_exit (env : nat -> round_env) (w w' : world) :
  main env w = Return tt w' ->
  (exists out, stdout w' = out ++ [Print goodbye])
  /\ exists name_line lines line,
       stdin w = name_line :: lines
       /\ In line lines /\ PyStr.strip line = lit "4".
Proof.
  intros H. rewrite main_unfold in H.
  destruct (stdin w) as [| name_line lines]; [discriminate |].
  apply main_loop_return in H. destruct H as [Ho [line [Hin Hl]]].
  split; [exact Ho |]. exists name_line, lines, line. now split.
Qed.

Lemma main_returns_only_by_exit_witness :
  (exists out,
      stdout (world_after (main (fixed_env 6)) session_start)
      = out ++ [Print goodbye])
  /\ exists name_line lines line,
       stdin session_start = name_line :: lines
       /\ In line lines /\ PyStr.strip line = lit "4".
Proof.
  apply (main_returns_only_by_exit (fixed_env 6) session_start
           (world_after (main (fixed_env 6)) session_start)).
  vm_compute. reflexivity.
Defined.

(** The loop of [main] never uses up fuel that exceeds the number of
    pending lines. *)
Lemma main_loop_fuel (fuel : nat) (player : str) (env : nat -> round_env)
    (round : nat) (w : world) :
  (List.length (stdin w) < fuel)%nat ->
  main_loop fuel player env round w <> FuelOut.
Proof.
  revert round w. induction fuel as [| fuel IH]; intros round w H; [lia |].
  rewrite main_loop_step.
  destruct (stdin w) as [| line rest] eqn:Ein; [discriminate |].
  cbv zeta. simpl in H.
  assert (K : forall r w1,
             (exists taken, rest = taken ++ stdin w1) ->
             main_loop fuel player env r w1 <> FuelOut).
  { intros r w1 [taken Et]. apply IH.
    apply (f_equal (@List.length str)) in Et. rewrite length_app in Et. lia. }
  destruct (PyStr.eqb (PyStr.strip line) (lit "1")).
  { unfold bind at 1.
    match goal with
    | |- context [play_round ?a ?b ?c ?d ?e ?v] =>
        assert (T := takes_lines_play_round a b c d e v);
        assert (P := play_round_total a b c d e v);
        destruct (play_round a b c d e v) as [x w1 | | |];
          try discriminate; [| contradiction]
    end.
    simpl in T. now apply K. }
  destruct (PyStr.eqb (PyStr.strip line) (lit "2")).
  { unfold bind at 1.
    match goal with
    | |- context [show_leaderboard ?v] =>
        destruct (show_leaderboard_returns v) as [out E]; rewrite E
    end.
    apply K. now exists []. }
  destruct (PyStr.eqb (PyStr.strip line) (lit "3")).
  { unfold bind, print. apply K. now exists []. }
  destruct (PyStr.eqb (PyStr.strip line) (lit "4")); [discriminate |].
  apply K. now exists [].
Qed.

(** A session always ends: it returns, raises, or waits for input. *)
Lemma main_total (env : nat -> round_env) (w : world) :
  main env w <> FuelOut.
Proof.
  rewrite main_unfold. destruct (stdin w) as [| line rest]; [discriminate |].
  apply main_loop_fuel. simpl. lia.
Qed.

(** ** What cannot raise *)





Lemma safe_weaken {A} (m : M A) (Q R : A -> Prop) :
  (forall a, Q a -> R a) -> safe m Q -> safe m R.
Proof.
  intros HQR Hm w Hc. specialize (Hm w Hc).
  destruct (m w); auto. destruct Hm. split; auto.
Qed.
















(** X20. Reading never writes: [load_scores], [show_leaderboard],
    [ask_int] and [choose_difficulty] leave the score file as they found
    it, however they end. *)
Theorem readers_keep_the_file (prompt : list frag) (minv maxv : option Z) :
  keeps_disk load_scores
  /\ keeps_disk show_leaderboard
  /\ keeps_disk (ask_int prompt minv maxv)
  /\ keeps_disk choose_difficulty.
Proof.
  split; [| split; [| split]].
  - intros w. now rewrite load_scores_eq.
  - apply keeps_disk_show_leaderboard.
  - apply keeps_disk_ask_int.
  - apply keeps_disk_choose_difficulty.
Qed.

(** ** The best twenty of all saves *)

Lemma key_lt_trans (a b c : ScoreRecord) :
  key_lt (key a) (key b) = true -> key_lt (key b) (key c) = true ->
  key_lt (key a) (key c) = true.
Proof.
  rewrite !key_lt_before. intros [H | [H1 H2]] [K | [K1 K2]].
  - left; lia.
  - left; lia.
  - left; lia.
  - right. split; [congruence | now apply Qlt_trans with (time_taken b)].
Qed.

Lemma key_lt_false_trans (a b c : ScoreRecord) :
  key_lt (key a) (key b) = false -> key_lt (key b) (key c) = false ->
  key_lt (key a) (key c) = false.
Proof.
  rewrite !key_lt_false_le. intros H K. now apply key_le_trans with b.
Qed.

Lemma insert_insert_behind (a x : ScoreRecord) (l : list ScoreRecord) :
  insert a (insert_behind x l) = insert_behind x (insert a l).
Proof.
  induction l as [| y l IH]; cbn [insert insert_behind].
  - destruct (key_lt (key x) (key a)); reflexivity.
  - destruct (key_lt (key x) (key y)) eqn:Exy;
      destruct (key_lt (key y) (key a)) eqn:Eya;
      cbn [insert insert_behind]; rewrite ?Exy, ?Eya.
    + rewrite (key_lt_trans x y a Exy Eya). reflexivity.
    + destruct (key_lt (key x) (key a)); reflexivity.
    + now rewrite IH.
    + rewrite (key_lt_false_trans x y a Exy Eya). reflexivity.
Qed.

(** Sorting with one more record at the end puts that record behind the
    ones that do not sort after it. *)
Lemma sorted_snoc_behind (l : list ScoreRecord) (x : ScoreRecord) :
  sorted (l ++ [x]) = insert_behind x (sorted l).
Proof.
  induction l as [| a l IH]; [reflexivity |].
  cbn [app sorted fold_right]. fold (sorted (l ++ [x])). fold (sorted l).
  rewrite IH. apply insert_insert_behind.
Qed.

Lemma firstn_cons_firstn {A} (n : nat) (y : A) (l : list A) :
  firstn n (y :: firstn n l) = firstn n (y :: l).
Proof.
  destruct n as [| n]; [reflexivity |].
  rewrite !firstn_cons. f_equal.
  rewrite firstn_firstn. f_equal. lia.
Qed.

Lemma firstn_insert_behind (n : nat) (x : ScoreRecord)
    (l : list ScoreRecord) :
  firstn n (insert_behind x (firstn n l)) = firstn n (insert_behind x l).
Proof.
  revert l. induction n as [| n IH]; intros l; [reflexivity |].
  destruct l as [| y l]; [reflexivity |].
  rewrite firstn_cons. cbn [insert_behind].
  destruct (key_lt (key x) (key y)).
  - rewrite !firstn_cons. f_equal.
    rewrite <- firstn_cons. apply firstn_cons_firstn.
  - rewrite !firstn_cons. f_equal. apply IH.
Qed.

(** Cutting to twenty before a save loses nothing the cut after it would
    keep. *)
Lemma saved_of_best (a : list ScoreRecord) (r : ScoreRecord) :
  firstn 20 (sorted (firstn 20 (sorted a) ++ [r]))
  = firstn 20 (sorted (a ++ [r])).
Proof.
  rewrite !sorted_snoc_behind.
  rewrite (sorted_id (firstn 20 (sorted a))).
  - apply firstn_insert_behind.
  - apply StronglySorted_Sorted, StronglySorted_firstn, sorted_StronglySorted.
Qed.

Lemma store_after_best (cs : list save_call) (f : file)
    (a : list ScoreRecord) :
  scores_of f = firstn 20 (sorted a) ->
  scores_of (store_after f cs)
  = firstn 20 (sorted (a ++ map record_of cs)).
Proof.
  revert f a. induction cs as [| c cs IH]; intros f a H.
  - simpl. now rewrite app_nil_r.
  - cbn [store_after fold_left map].
    change (fold_left (fun f0 c0 => Stored (saved f0 (record_of c0))) cs
              (Stored (saved f (record_of c))))
      with (store_after (Stored (saved f (record_of c))) cs).
    rewrite (IH _ (a ++ [record_of c])).
    + now rewrite <- app_assoc.
    + cbn [scores_of]. unfold saved. rewrite H. apply saved_of_best.
Qed.

(** X21. After any run of one or more saves, [load_scores] returns the
    20 best of all the records involved: the first 20 of the stable sort
    of the records the file held followed by the records saved, in the
    order of the saves.  No record that belongs to these 20 is ever
    lost by an earlier cut, and ties rank in the order they arrived. *)
Theorem saves_keep_best_of_all (cs : list save_call) (w : world) :
  cs <> [] ->
  exists w',
    (saves cs ;;; load_scores) w
    = Return (firstn 20 (sorted (scores_of (disk w) ++ map record_of cs))) w'.
Proof.
  intros Hne. destruct cs as [| c cs]; [contradiction |].
  exists (set_disk (store_after (disk w) (c :: cs)) w).
  unfold bind. rewrite saves_eq, load_scores_eq. f_equal.
  cbn [set_disk disk store_after fold_left map].
  change (fold_left (fun f0 c0 => Stored (saved f0 (record_of c0))) cs
            (Stored (saved (disk w) (record_of c))))
    with (store_after (Stored (saved (disk w) (record_of c))) cs).
  rewrite (store_after_best cs _ (scores_of (disk w) ++ [record_of c])).
  - now rewrite <- app_assoc.
  - reflexivity.
Qed.

Lemma saves_keep_best_of_all_witness :
  exists w',
    (saves (sample_calls 25) ;;; load_scores) (idle (Stored full_store))
    = Return
        (firstn 20
           (sorted (full_store ++ map record_of (sample_calls 25)))) w'.
Proof.
  apply (saves_keep_best_of_all (sample_calls 25) (idle (Stored full_store))).
  discriminate.
Defined.

(** ** Rounds from the first line to the last *)

Lemma guess_loop_skip (wrongs : list str) (fuel : nat)
    (low high mx secret att : Z) (tail : list str) (out : list output)
    (d : file) :
  Forall (wrong_guess low high secret) wrongs ->
  att + Z.of_nat (List.length wrongs) <= mx ->
  exists out',
    guess_loop (List.length wrongs + fuel) low high mx secret att
      (mkWorld (wrongs ++ tail) out d)
    = guess_loop fuel low high mx secret
        (att + Z.of_nat (List.length wrongs))
        (mkWorld tail (out ++ out') d).
Proof.
  intros H. revert att out.
  induction H as [| line wrongs [g [Ha Hne]] Hs IH]; intros att out Hle.
  - exists []. simpl. now rewrite Z.add_0_r, app_nil_r.
  - cbn [List.length] in Hle. rewrite Nat2Z.inj_succ in Hle.
    destruct (IH (att + 1)
                ((out ++ [Prompt (guess_prompt (att + 1) mx)])
                 ++ [Print (nope low high secret g)]))
      as [out' E]; [lia |].
    exists ([Prompt (guess_prompt (att + 1) mx);
             Print (nope low high secret g)] ++ out').
    cbn [List.length Nat.add app].
    rewrite (guess_loop_wrong _ low high mx secret att g
               (mkWorld (line :: wrongs ++ tail) out d)
               (mkWorld (wrongs ++ tail)
                  (out ++ [Prompt (guess_prompt (att + 1) mx)]) d));
      [| lia | now apply ask_int_accepted_head | exact Hne].
    unfold emit. cbn [stdin stdout disk]. rewrite E.
    rewrite Nat2Z.inj_succ.
    replace (att + Z.succ (Z.of_nat (List.length wrongs)))
      with (att + 1 + Z.of_nat (List.length wrongs)) by lia.
    now rewrite <- !app_assoc.
Qed.

Lemma fixed_row_range (choice : str) (diff : str) (low high mx : Z) :
  fixed_row choice (diff, low, high, mx) -> (low <=? high) = true.
Proof.
  intros [[_ H] | [[_ H] | [_ H]]]; inversion H; reflexivity.
Qed.

Lemma play_round_to_guess_loop (nm : option str) (rnd : Z)
    (start stop clock : Q) (c : str) (tail : list str) (out : list output)
    (d : file) (diff : str) (low high mx : Z) :
  fixed_row (PyStr.strip c) (diff, low, high, mx) ->
  exists out1,
    forall r w3,
      guess_loop (S (List.length tail)) low high mx
        (low + rnd mod (high - low + 1)) 0 (mkWorld tail (out ++ out1) d)
      = Return r w3 ->
      play_round nm rnd start stop clock (mkWorld (c :: tail) out d)
      = (let '(guessed, att) := r in
         (if guessed then
            print [Text nl; Text (lit "🎉 Correct! The number was ");
                   IntF (low + rnd mod (high - low + 1)); Text (lit ".")] ;;;
            print [Text (lit "Attempts: "); IntF att; Text (lit ", Time: ");
                   FloatF (round2 (stop - start));
                   Text (lit "s, Difficulty: "); Text diff] ;;;
            n <- leaderboard_name nm ;;
            save_score n att (stop - start) diff clock
          else
            print [Text nl; Text (lit "☹️ Out of attempts! The number was ");
                   IntF (low + rnd mod (high - low + 1));
                   Text (lit ". Better luck next time.")]) ;;;
         print [] ;;;
         ret (guessed, att, (stop - start)%Q, diff)) w3.
Proof.
  intros Hrow.
  destruct (choose_difficulty_unfold (mkWorld (c :: tail) out d))
    as [banner [_ E]].
  cbn [stdin stdout disk] in E.
  rewrite (fixed_row_return _ c tail _ _ _ Hrow) in E.
  eexists. intros r w3 G.
  unfold play_round. unfold bind at 1. rewrite E.
  unfold bind at 1. unfold randint. rewrite (fixed_row_range _ _ _ _ _ Hrow).
  unfold ret at 1. unfold bind at 1. unfold print at 1. unfold bind at 1.
  unfold emit. cbn [stdin stdout disk].
  rewrite <- !app_assoc in *. rewrite G. reflexivity.
Qed.

(** X22. On a fixed level, a round in which the guesses typed are wrong
    until one is the secret, within the budget, is won at that guess:
    the attempts returned are its position, the lines after it stay
    unread, and one record with these attempts is saved under the name
    the caller gave. *)
Theorem play_round_won_at_first_correct (n : str) (rnd : Z)
    (start stop clock : Q) (w : world) (c : str) (wrongs : list str)
    (line : str) (rest : list str) (diff : str) (low high mx : Z) :
  n <> [] ->
  stdin w = c :: wrongs ++ line :: rest ->
  fixed_row (PyStr.strip c) (diff, low, high, mx) ->
  Forall (wrong_guess low high (low + rnd mod (high - low + 1))) wrongs ->
  accepted (Some low) (Some high) line (low + rnd mod (high - low + 1)) ->
  Z.of_nat (List.length wrongs) < mx ->
  exists w',
    play_round (Some n) rnd start stop clock w
    = Return (true, Z.of_nat (List.length wrongs) + 1, (stop - start)%Q, diff)
        w'
    /\ stdin w' = rest
    /\ disk w'
       = Stored (saved (disk w)
                   (mkScore n (Z.of_nat (List.length wrongs) + 1)
                      (round2 (stop - start)) diff (int_of_float clock))).
Proof.
  intros Hn Ein Hrow Hw Ha Hlt. destruct w as [lines out d].
  cbn [stdin disk] in *. subst lines.
  destruct (play_round_to_guess_loop (Some n) rnd start stop clock c
              (wrongs ++ line :: rest) out d diff low high mx Hrow)
    as [out1 P].
  set (secret := low + rnd mod (high - low + 1)) in *.
  destruct (guess_loop_skip wrongs (S (S (List.length rest))) low high mx
              secret 0 (line :: rest) (out ++ out1) d Hw) as [out2 E];
    [lia |].
  assert (G : guess_loop (S (List.length (wrongs ++ line :: rest))) low high
                mx secret 0 (mkWorld (wrongs ++ line :: rest) (out ++ out1) d)
              = Return (true, Z.of_nat (List.length wrongs) + 1)
                  (mkWorld rest
                     (((out ++ out1) ++ out2)
                      ++ [Prompt (guess_prompt
                                    (Z.of_nat (List.length wrongs) + 1) mx)])
                     d)).
  { replace (S (List.length (wrongs ++ line :: rest)))
      with (List.length wrongs + S (S (List.length rest)))%nat
      by (rewrite length_app; simpl; lia).
    rewrite E. cbn [guess_loop]. rewrite Z.add_0_l.
    apply Z.ltb_lt in Hlt. rewrite Hlt. unfold bind at 1.
    rewrite (ask_int_accepted_head _ _ _ line _ _ _ secret Ha).
    now rewrite Z.eqb_refl. }
  rewrite (P _ _ G). unfold bind, print, ret, leaderboard_name.
  rewrite (falsy_false n Hn). unfold ret. rewrite save_score_eq.
  eexists. split; [reflexivity |]. split; reflexivity.
Qed.

(** X23. On a fixed level, a round in which as many wrong guesses are
    typed as the budget allows is lost: it returns the budget as
    attempts, reads no further line and leaves the score file alone. *)
Theorem play_round_lost_after_budget (nm : option str) (rnd : Z)
    (start stop clock : Q) (w : world) (c : str) (wrongs rest : list str)
    (diff : str) (low high mx : Z) :
  stdin w = c :: wrongs ++ rest ->
  fixed_row (PyStr.strip c) (diff, low, high, mx) ->
  Forall (wrong_guess low high (low + rnd mod (high - low + 1))) wrongs ->
  Z.of_nat (List.length wrongs) = mx ->
  exists w',
    play_round nm rnd start stop clock w
    = Return (false, mx, (stop - start)%Q, diff) w'
    /\ stdin w' = rest
    /\ disk w' = disk w.
Proof.
  intros Ein Hrow Hw Hmx. destruct w as [lines out d].
  cbn [stdin disk] in *. subst lines.
  destruct (play_round_to_guess_loop nm rnd start stop clock c
              (wrongs ++ rest) out d diff low high mx Hrow)
    as [out1 P].
  set (secret := low + rnd mod (high - low + 1)) in *.
  destruct (guess_loop_skip wrongs (S (List.length rest)) low high mx
              secret 0 rest (out ++ out1) d Hw) as [out2 E]; [lia |].
  assert (G : guess_loop (S (List.length (wrongs ++ rest))) low high
                mx secret 0 (mkWorld (wrongs ++ rest) (out ++ out1) d)
              = Return (false, mx)
                  (mkWorld rest ((out ++ out1) ++ out2) d)).
  { replace (S (List.length (wrongs ++ rest)))
      with (List.length wrongs + S (List.length rest))%nat
      by (rewrite length_app; simpl; lia).
    rewrite E. cbn [guess_loop]. rewrite Z.add_0_l, Hmx.
    now rewrite Z.ltb_irrefl. }
  rewrite (P _ _ G). unfold bind, print, ret.
  eexists. split; [reflexivity |]. split; reflexivity.
Qed.

Ltac accept_line :=
  split; [apply guard_integer_text; reflexivity |];
  split; [reflexivity | split; reflexivity].

Lemma play_round_won_at_first_correct_witness :
  exists w',
    play_round (Some (lit "Zoe")) 6 (0 # 1) (5 # 2) (1700000000 # 1)
      fourth_guess_start
    = Return (true, Z.of_nat 3 + 1, ((5 # 2) - (0 # 1))%Q, lit "Easy") w'
    /\ stdin w' = [lit "x"]
    /\ disk w'
       = Stored (saved Missing
                   (mkScore (lit "Zoe") (Z.of_nat 3 + 1)
                      (round2 ((5 # 2) - (0 # 1))) (lit "Easy")
                      (int_of_float (1700000000 # 1)))).
Proof.
  apply (play_round_won_at_first_correct (lit "Zoe") 6 (0 # 1) (5 # 2)
           (1700000000 # 1) fourth_guess_start (lit "1")
           [lit "1"; lit "5"; lit "9"] (lit "7") [lit "x"] (lit "Easy")
           1 10 6).
  - discriminate.
  - reflexivity.
  - left. split; reflexivity.
  - apply Forall_cons; [exists 1; split; [accept_line | discriminate] |].
    apply Forall_cons; [exists 5; split; [accept_line | discriminate] |].
    apply Forall_cons; [exists 9; split; [accept_line | discriminate] |].
    apply Forall_nil.
  - accept_line.
  - simpl. lia.
Defined.

Lemma play_round_lost_after_budget_witness :
  exists w',
    lost_round lost_round_start
    = Return (false, 6, ((10 # 1) - (0 # 1))%Q, lit "Easy") w'
    /\ stdin w' = []
    /\ disk w' = Stored full_store.
Proof.
  apply (play_round_lost_after_budget (Some (lit "Player")) 6 (0 # 1)
           (10 # 1) (1700000000 # 1) lost_round_start (lit "1")
           [lit "1"; lit "2"; lit "3"; lit "4"; lit "5"; lit "6"] []
           (lit "Easy") 1 10 6).
  - reflexivity.
  - left. split; reflexivity.
  - apply Forall_cons; [exists 1; split; [accept_line | discriminate] |].
    apply Forall_cons; [exists 2; split; [accept_line | discriminate] |].
    apply Forall_cons; [exists 3; split; [accept_line | discriminate] |].
    apply Forall_cons; [exists 4; split; [accept_line | discriminate] |].
    apply Forall_cons; [exists 5; split; [accept_line | discriminate] |].
    apply Forall_cons; [exists 6; split; [accept_line | discriminate] |].
    apply Forall_nil.
  - reflexivity.
Defined.
